(** * cpp-forge-ide: the workspace store and the simulated build of src/App.tsx

    A shallow embedding of the state held by the [App] component
    (src/App.tsx) and of its event handlers, together with a model of the
    two platform functions the persistence code relies on
    ([JSON.stringify] at type [FileNode[]] and [JSON.parse]).

    Conventions.
    - A JavaScript string is the list of its UTF-16 code units.
    - React state is the record [World]; a handler is a function on it.
      Handlers see the state of the render they were created in, which for
      handlers invoked by user events is the latest committed state (for
      the rows of the file list as long as ids are pairwise distinct, see
      [Event]).
    - [Date.now()] is an oracle [Date_now : nat -> N] (the n-th reading).
    - [Math.random().toString(36).substr(2, 9)], [prompt] and [confirm]
      are inputs of the handler that calls them.
    - The suspended part of [runCode] (what is left after an [await]) is a
      [Task] kept in the world; a timer event resumes it. *)

From Stdlib Require Import String Ascii List NArith Bool Arith Lia.
From Stdlib Require Import Sorted.
Import ListNotations.

Set Warnings "-register-all".
Local Open Scope N_scope.

(* ------------------------------------------------------------------ *)
(** ** JavaScript strings *)

Definition jsstring := list N.

(** A literal of the source, written with ASCII characters only. *)
Definition str (s : string) : jsstring :=
  map N_of_ascii (list_ascii_of_string s).

Definition dq : N := 34.   (* the double quote *)
Definition nl : N := 10.   (* \n *)

Fixpoint jsstring_eqb (a b : jsstring) : bool :=
  match a, b with
  | [], [] => true
  | x :: a', y :: b' => (x =? y) && jsstring_eqb a' b'
  | _, _ => false
  end.

(** [s.split(sep)] for a one-unit separator: the segments between the
    occurrences of [sep], never an empty array. *)
Fixpoint split (sep : N) (s : jsstring) : list jsstring :=
  match s with
  | [] => [[]]
  | u :: r =>
      if u =? sep then [] :: split sep r
      else match split sep r with
           | seg :: segs => (u :: seg) :: segs
           | [] => [[u]]
           end
  end.

(** [arr.pop()]: the last element, [undefined] on an empty array. *)
Fixpoint pop {A} (l : list A) : option A :=
  match l with
  | [] => None
  | [x] => Some x
  | _ :: r => pop r
  end.

(** [toLowerCase] on the Basic Latin letters.  The other case mappings of
    Unicode are left out: none of them produces one of the letters c, p or
    h, so the comparison of the result with the four accepted extensions is
    not affected. *)
Definition lower_unit (u : N) : N :=
  if (65 <=? u) && (u <=? 90) then u + 32 else u.

Definition toLowerCase (s : jsstring) : jsstring := map lower_unit s.

(** [s] has [sub] as a contiguous part. *)
Definition contains (s sub : jsstring) : Prop :=
  exists pre post, s = pre ++ sub ++ post.

(* ------------------------------------------------------------------ *)
(** ** JSON text (ECMA-404) as read by [JSON.parse] *)

Module JSON.

(** Parsed values.  A number is kept as its lexeme: no field of a
    [FileNode] is numeric, so its conversion to a double is not needed. *)
Inductive value :=
| JNull
| JBool (b : bool)
| JNumber (lexeme : jsstring)
| JString (s : jsstring)
| JArray (elems : list value)
| JObject (members : list (jsstring * value)).

(** *** Writing a string: QuoteJSONString *)

Definition hexdigit (d : N) : N :=
  if d <? 10 then 48 + d else 87 + d.     (* 0-9, a-f *)

(** [\uXXXX] with lower-case hexadecimal digits. *)
Definition UnicodeEscape (u : N) : jsstring :=
  [92; 117; hexdigit ((u / 4096) mod 16); hexdigit ((u / 256) mod 16);
   hexdigit ((u / 16) mod 16); hexdigit (u mod 16)].

Definition is_high_surrogate (u : N) : bool := (55296 <=? u) && (u <=? 56319).
Definition is_low_surrogate (u : N) : bool := (56320 <=? u) && (u <=? 57343).

(** One code unit that is not part of a surrogate pair. *)
Definition quote_unit (u : N) : jsstring :=
  if u =? 8 then [92; 98]            (* \b *)
  else if u =? 9 then [92; 116]      (* \t *)
  else if u =? 10 then [92; 110]     (* \n *)
  else if u =? 12 then [92; 102]     (* \f *)
  else if u =? 13 then [92; 114]     (* \r *)
  else if u =? 34 then [92; 34]      (* \dq *)
  else if u =? 92 then [92; 92]      (* \\ *)
  else if u <? 32 then UnicodeEscape u
  else if is_high_surrogate u || is_low_surrogate u then UnicodeEscape u
  else [u].

(** The text is walked code point by code point: a high surrogate
    followed by a low one is one code point and is written as it is. *)
Fixpoint quote_body (s : jsstring) : jsstring :=
  match s with
  | [] => []
  | u :: r =>
      if is_high_surrogate u then
        match r with
        | lo :: r' =>
            if is_low_surrogate lo then u :: lo :: quote_body r'
            else quote_unit u ++ quote_body r
        | [] => quote_unit u
        end
      else quote_unit u ++ quote_body r
  end.

Definition QuoteJSONString (s : jsstring) : jsstring :=
  dq :: quote_body s ++ [dq].

(** *** Reading: a one-pass pushdown recogniser that builds the value *)

(** What is being built around the current position. *)
Inductive frame :=
| FArray (done : list value)
| FObject (done : list (jsstring * value)) (key : option jsstring).

(** What the grammar allows next, between two tokens. *)
Inductive expect :=
| XValue
| XValueOrClose
| XKeyOrClose
| XKey
| XColon
| XCommaOrClose
| XEnd (v : value).

(** Where a number lexeme stands: an optional minus sign; an integer
    part that is 0 or begins with 1-9; an optional fraction, a dot and
    at least one digit; an optional exponent, e or E, an optional sign
    and at least one digit. *)
Inductive numstate :=
| NMinus | NZero | NInt | NDot | NFrac | NExp | NExpSign | NExpDigits.

(** The token being read. *)
Inductive lex :=
| Idle
| InString (acc : jsstring)
| InEscape (acc : jsstring)
| InHex (acc : jsstring) (todo : nat) (code : N)
| InLiteral (rest : jsstring) (v : value)
| InNumber (ns : numstate) (acc : jsstring).

Record pstate := mkp { stack : list frame; exp : expect; lx : lex }.

Definition initial : pstate := mkp [] XValue Idle.

Definition is_ws (u : N) : bool :=
  (u =? 32) || (u =? 9) || (u =? 10) || (u =? 13).

Definition is_digit (u : N) : bool := (48 <=? u) && (u <=? 57).
Definition is_digit19 (u : N) : bool := (49 <=? u) && (u <=? 57).
Definition is_e (u : N) : bool := (u =? 101) || (u =? 69).

Definition hexval (u : N) : option N :=
  if is_digit u then Some (u - 48)
  else if (97 <=? u) && (u <=? 102) then Some (u - 87)
  else if (65 <=? u) && (u <=? 70) then Some (u - 55)
  else None.

Definition num_step (ns : numstate) (u : N) : option numstate :=
  match ns with
  | NMinus => if u =? 48 then Some NZero
              else if is_digit19 u then Some NInt else None
  | NZero => if u =? 46 then Some NDot
             else if is_e u then Some NExp else None
  | NInt => if is_digit u then Some NInt
            else if u =? 46 then Some NDot
            else if is_e u then Some NExp else None
  | NDot => if is_digit u then Some NFrac else None
  | NFrac => if is_digit u then Some NFrac
             else if is_e u then Some NExp else None
  | NExp => if (u =? 43) || (u =? 45) then Some NExpSign
            else if is_digit u then Some NExpDigits else None
  | NExpSign => if is_digit u then Some NExpDigits else None
  | NExpDigits => if is_digit u then Some NExpDigits else None
  end.

Definition num_final (ns : numstate) : bool :=
  match ns with
  | NZero | NInt | NFrac | NExpDigits => true
  | _ => false
  end.

(** A complete value is handed to what encloses it. *)
Definition deliver (v : value) (stk : list frame) : option pstate :=
  match stk with
  | [] => Some (mkp [] (XEnd v) Idle)
  | FArray done :: k => Some (mkp (FArray (v :: done) :: k) XCommaOrClose Idle)
  | FObject done (Some key) :: k =>
      Some (mkp (FObject ((key, v) :: done) None :: k) XCommaOrClose Idle)
  | FObject _ None :: _ => None
  end.

(** A complete string is a member name or a value, by where it began. *)
Definition finish_string (s : jsstring) (st : pstate) : option pstate :=
  match exp st with
  | XKeyOrClose | XKey =>
      match stack st with
      | FObject done None :: k => Some (mkp (FObject done (Some s) :: k) XColon Idle)
      | _ => None
      end
  | _ => deliver (JString s) (stack st)
  end.

Definition start_value (st : pstate) (u : N) : option pstate :=
  let stk := stack st in
  if u =? 34 then Some (mkp stk (exp st) (InString []))
  else if u =? 91 then Some (mkp (FArray [] :: stk) XValueOrClose Idle)
  else if u =? 123 then Some (mkp (FObject [] None :: stk) XKeyOrClose Idle)
  else if u =? 116 then Some (mkp stk (exp st) (InLiteral (str "rue") (JBool true)))
  else if u =? 102 then Some (mkp stk (exp st) (InLiteral (str "alse") (JBool false)))
  else if u =? 110 then Some (mkp stk (exp st) (InLiteral (str "ull") JNull))
  else if u =? 45 then Some (mkp stk (exp st) (InNumber NMinus [u]))
  else if u =? 48 then Some (mkp stk (exp st) (InNumber NZero [u]))
  else if is_digit19 u then Some (mkp stk (exp st) (InNumber NInt [u]))
  else None.

(** One code unit read between two tokens. *)
Definition step_idle (st : pstate) (u : N) : option pstate :=
  if is_ws u then Some st
  else
    match exp st with
    | XValue => start_value st u
    | XValueOrClose =>
        if u =? 93 then
          match stack st with
          | FArray _ :: k => deliver (JArray []) k
          | _ => None
          end
        else start_value st u
    | XKeyOrClose =>
        if u =? 125 then
          match stack st with
          | FObject _ _ :: k => deliver (JObject []) k
          | _ => None
          end
        else if u =? 34 then Some (mkp (stack st) XKeyOrClose (InString []))
        else None
    | XKey =>
        if u =? 34 then Some (mkp (stack st) XKey (InString [])) else None
    | XColon =>
        if u =? 58 then Some (mkp (stack st) XValue Idle) else None
    | XCommaOrClose =>
        match stack st with
        | FArray done :: k =>
            if u =? 44 then Some (mkp (stack st) XValue Idle)
            else if u =? 93 then deliver (JArray (rev done)) k
            else None
        | FObject done None :: k =>
            if u =? 44 then Some (mkp (stack st) XKey Idle)
            else if u =? 125 then deliver (JObject (rev done)) k
            else None
        | _ => None
        end
    | XEnd _ => None
    end.

(** One code unit of the text. *)
Definition step (st : pstate) (u : N) : option pstate :=
  match lx st with
  | Idle => step_idle st u
  | InString acc =>
      if u =? 34 then finish_string (rev acc) st
      else if u =? 92 then Some (mkp (stack st) (exp st) (InEscape acc))
      else if u <? 32 then None
      else Some (mkp (stack st) (exp st) (InString (u :: acc)))
  | InEscape acc =>
      let unit c := Some (mkp (stack st) (exp st) (InString (c :: acc))) in
      if u =? 34 then unit 34
      else if u =? 92 then unit 92
      else if u =? 47 then unit 47
      else if u =? 98 then unit 8
      else if u =? 102 then unit 12
      else if u =? 110 then unit 10
      else if u =? 114 then unit 13
      else if u =? 116 then unit 9
      else if u =? 117 then Some (mkp (stack st) (exp st) (InHex acc 4 0))
      else None
  | InHex acc todo code =>
      match hexval u with
      | None => None
      | Some d =>
          let code' := code * 16 + d in
          match todo with
          | 0%nat | 1%nat => Some (mkp (stack st) (exp st) (InString (code' :: acc)))
          | S todo' => Some (mkp (stack st) (exp st) (InHex acc todo' code'))
          end
      end
  | InLiteral rest v =>
      match rest with
      | [] => None
      | x :: rest' =>
          if u =? x then
            match rest' with
            | [] => deliver v (stack st)
            | _ => Some (mkp (stack st) (exp st) (InLiteral rest' v))
            end
          else None
      end
  | InNumber ns acc =>
      match num_step ns u with
      | Some ns' => Some (mkp (stack st) (exp st) (InNumber ns' (u :: acc)))
      | None =>
          if num_final ns then
            match deliver (JNumber (rev acc)) (stack st) with
            | Some st' => step_idle st' u
            | None => None
            end
          else None
      end
  end.

Fixpoint feed (s : jsstring) (st : pstate) : option pstate :=
  match s with
  | [] => Some st
  | u :: r => match step st u with
              | Some st' => feed r st'
              | None => None
              end
  end.

(** The end of the text: a number may end there, anything else open is
    an error. *)
Definition finish (st : pstate) : option value :=
  match lx st with
  | Idle => match exp st with XEnd v => Some v | _ => None end
  | InNumber ns acc =>
      if num_final ns then
        match deliver (JNumber (rev acc)) (stack st) with
        | Some (mkp _ (XEnd v) _) => Some v
        | _ => None
        end
      else None
  | _ => None
  end.

(** [JSON.parse(text)]: [None] is the SyntaxError it throws. *)
Definition parse (text : jsstring) : option value :=
  match feed text initial with
  | Some st => finish st
  | None => None
  end.

(** [obj[key]] on a parsed object: of members with the same name the
    last one is kept. *)
Fixpoint get (key : jsstring) (members : list (jsstring * value)) : option value :=
  match members with
  | [] => None
  | (k, v) :: r =>
      match get key r with
      | Some v' => Some v'
      | None => if jsstring_eqb k key then Some v else None
      end
  end.

End JSON.

(* ------------------------------------------------------------------ *)
(** ** The data model (the interfaces [FileNode] and [TerminalLine]) *)

Module FileNode.
Inductive Language := c | cpp.
Record t := mk {
  id : jsstring;
  name : jsstring;
  content : jsstring;
  language : Language
}.
End FileNode.

Module TerminalLine.
Inductive Kind := input | output | error | system.
Record t := mk {
  type : Kind;
  content : jsstring;
  timestamp : N
}.
End TerminalLine.

Definition INITIAL_FILES : list FileNode.t :=
  [ FileNode.mk (str "1") (str "main.cpp")
      (str "#include <iostream>" ++ [nl; nl] ++
       str "int main() {" ++ [nl] ++
       str "    std::cout << " ++ [dq] ++ str "C++ Forge Professional Edition" ++ [dq] ++
       str " << std::endl;" ++ [nl] ++
       str "    std::cout << " ++ [dq] ++
       str "Local high-performance environment initialized." ++ [dq] ++
       str " << std::endl;" ++ [nl] ++
       str "    return 0;" ++ [nl] ++
       str "}")
      FileNode.cpp;
    FileNode.mk (str "2") (str "header.h")
      (str "// Standard utility header" ++ [nl] ++
       str "#ifndef UTILS_H" ++ [nl] ++
       str "#define UTILS_H" ++ [nl; nl] ++
       str "void greet();" ++ [nl; nl] ++
       str "#endif")
      FileNode.cpp ].

(* ------------------------------------------------------------------ *)
(** ** Persistence: the slot [localStorage[STORAGE_KEY]] *)

Definition STORAGE_KEY : jsstring := str "cpp-forge-files".

(** The value kept under [STORAGE_KEY]; [None] is what [getItem] gives for
    a key that was never set ([null]).  The slot is taken to have room for
    any text. *)
Definition Slot := option jsstring.

Definition language_text (l : FileNode.Language) : jsstring :=
  match l with
  | FileNode.c => str "c"
  | FileNode.cpp => str "cpp"
  end.

(** [JSON.stringify] of one [FileNode]: the members in the order in which
    the object literals of App.tsx create them. *)
Definition stringify_file (f : FileNode.t) : jsstring :=
  [123] ++ JSON.QuoteJSONString (str "id") ++ [58] ++ JSON.QuoteJSONString (FileNode.id f) ++
  [44] ++ JSON.QuoteJSONString (str "name") ++ [58] ++ JSON.QuoteJSONString (FileNode.name f) ++
  [44] ++ JSON.QuoteJSONString (str "language") ++ [58] ++
          JSON.QuoteJSONString (language_text (FileNode.language f)) ++
  [44] ++ JSON.QuoteJSONString (str "content") ++ [58] ++
          JSON.QuoteJSONString (FileNode.content f) ++
  [125].

Fixpoint stringify_elems (fs : list FileNode.t) : jsstring :=
  match fs with
  | [] => []
  | [f] => stringify_file f
  | f :: r => stringify_file f ++ [44] ++ stringify_elems r
  end.

(** [JSON.stringify(files)] for [files : FileNode[]]. *)
Definition JSON_stringify (fs : list FileNode.t) : jsstring :=
  [91] ++ stringify_elems fs ++ [93].

(** A parsed value read at the type the code gives it, [FileNode[]]:
    the four fields of every element, other members ignored. *)
Definition as_string (v : option JSON.value) : option jsstring :=
  match v with
  | Some (JSON.JString s) => Some s
  | _ => None
  end.

Definition as_language (v : option JSON.value) : option FileNode.Language :=
  match as_string v with
  | Some s => if jsstring_eqb s (str "c") then Some FileNode.c
              else if jsstring_eqb s (str "cpp") then Some FileNode.cpp
              else None
  | None => None
  end.

Definition as_file (v : JSON.value) : option FileNode.t :=
  match v with
  | JSON.JObject ms =>
      match as_string (JSON.get (str "id") ms), as_string (JSON.get (str "name") ms),
            as_string (JSON.get (str "content") ms), as_language (JSON.get (str "language") ms) with
      | Some i, Some n, Some ct, Some l => Some (FileNode.mk i n ct l)
      | _, _, _, _ => None
      end
  | _ => None
  end.

Fixpoint as_files_list (vs : list JSON.value) : option (list FileNode.t) :=
  match vs with
  | [] => Some []
  | v :: r =>
      match as_file v, as_files_list r with
      | Some f, Some fs => Some (f :: fs)
      | _, _ => None
      end
  end.

Definition as_files (v : JSON.value) : option (list FileNode.t) :=
  match v with
  | JSON.JArray vs => as_files_list vs
  | _ => None
  end.

(** What the initialiser of [files] (App.tsx, lines 25-28) does:
    [saved ? JSON.parse(saved) : INITIAL_FILES]. *)
Inductive Loaded :=
| Files (fs : list FileNode.t)      (* the value of the initialiser *)
| SyntaxError                       (* thrown by [JSON.parse], not caught *)
| NotFiles (v : JSON.value).        (* parsed, but not a [FileNode[]] *)

Definition load (saved : Slot) : Loaded :=
  match saved with
  | None => Files INITIAL_FILES
  | Some [] => Files INITIAL_FILES            (* the empty string is falsy *)
  | Some text =>
      match JSON.parse text with
      | None => SyntaxError
      | Some v => match as_files v with
                  | Some fs => Files fs
                  | None => NotFiles v
                  end
      end
  end.

(** [localStorage.setItem(STORAGE_KEY, JSON.stringify(files))]. *)
Definition persist (fs : list FileNode.t) : Slot := Some (JSON_stringify fs).

(* ------------------------------------------------------------------ *)
(** ** The state of [App] and its handlers *)

(** The three [await]s of [runCode] (App.tsx, lines 56, 59 and 62). *)
Inductive Phase := AwaitCompile | AwaitLink | AwaitExec.

(** A suspended [runCode]: where it waits, and the name of the
    [activeFile] of the render it was started from. *)
Record Task := mkTask { phase : Phase; fileName : jsstring }.

Record World := mkWorld {
  files : list FileNode.t;
  activeFileId : jsstring;
  terminalLines : list TerminalLine.t;
  isRunning : bool;
  pending : list Task;          (* suspended runs, oldest first *)
  localStorage : Slot;
  ticks : nat                   (* readings of the clock so far *)
}.

(** How a handler ends: it returns, or it throws a TypeError; the state
    carried then is the one the updates requested before the throw lead
    to (the render of a state with an empty collection throws in turn,
    at [files[0].id]). *)
Inductive Outcome :=
| Ok (w : World)
| TypeError (w : World).

Definition setFiles (fs : list FileNode.t) (w : World) : World :=
  mkWorld fs (activeFileId w) (terminalLines w) (isRunning w) (pending w)
          (localStorage w) (ticks w).

Definition setActiveFileId (id : jsstring) (w : World) : World :=
  mkWorld (files w) id (terminalLines w) (isRunning w) (pending w)
          (localStorage w) (ticks w).

Definition setTerminalLines (ls : list TerminalLine.t) (w : World) : World :=
  mkWorld (files w) (activeFileId w) ls (isRunning w) (pending w)
          (localStorage w) (ticks w).

Definition setIsRunning (b : bool) (w : World) : World :=
  mkWorld (files w) (activeFileId w) (terminalLines w) b (pending w)
          (localStorage w) (ticks w).

Definition setPending (ts : list Task) (w : World) : World :=
  mkWorld (files w) (activeFileId w) (terminalLines w) (isRunning w) ts
          (localStorage w) (ticks w).

Definition setItem (text : Slot) (w : World) : World :=
  mkWorld (files w) (activeFileId w) (terminalLines w) (isRunning w) (pending w)
          text (ticks w).

(** The effect of lines 35-37, run after a render in which [files]
    changed. *)
Definition useEffect_persist (w : World) : World :=
  setItem (persist (files w)) w.

Definition ids (fs : list FileNode.t) : list jsstring := map FileNode.id fs.

Definition has_id (id : jsstring) (f : FileNode.t) : bool :=
  jsstring_eqb (FileNode.id f) id.

(** Line 33: [files.find(f => f.id === activeFileId) || files[0]];
    [None] is [undefined]. *)
Definition activeFile (w : World) : option FileNode.t :=
  match find (has_id (activeFileId w)) (files w) with
  | Some f => Some f
  | None => hd_error (files w)
  end.

(** Lines 39-42. *)
Definition handleEditorChange (value : option jsstring) (w : World) : World :=
  match value with
  | None => w
  | Some v =>
      useEffect_persist
        (setFiles
           (map (fun f => if has_id (activeFileId w) f
                          then FileNode.mk (FileNode.id f) (FileNode.name f) v
                                           (FileNode.language f)
                          else f)
                (files w))
           w)
  end.

(** Lines 76-82: the language of an extension, [None] where the code
    alerts and returns. *)
Definition language_of (ext : option jsstring) : option FileNode.Language :=
  match ext with
  | None => None
  | Some e =>
      if jsstring_eqb e (str "c") then Some FileNode.c
      else if jsstring_eqb e (str "cpp") || jsstring_eqb e (str "h")
              || jsstring_eqb e (str "hpp") then Some FileNode.cpp
      else None
  end.

(** Line 74: [name.split('.').pop()?.toLowerCase()]. *)
Definition extension (name : jsstring) : option jsstring :=
  option_map toLowerCase (pop (split 46 name)).

Definition skeleton (lang : FileNode.Language) : jsstring :=
  match lang with
  | FileNode.cpp =>
      str "#include <iostream>" ++ [nl; nl] ++ str "int main() {" ++ [nl] ++
      str "    return 0;" ++ [nl] ++ str "}"
  | FileNode.c =>
      str "#include <stdio.h>" ++ [nl; nl] ++ str "int main() {" ++ [nl] ++
      str "    return 0;" ++ [nl] ++ str "}"
  end.

(** Lines 71-92.  [answer] is what [prompt] returns ([None] when it is
    dismissed), [rnd] the text of the random id.  The second component is
    the message of the [alert], if one is shown. *)
Definition createNewFile (answer : option jsstring) (rnd : jsstring) (w : World)
  : World * option jsstring :=
  match answer with
  | None => (w, None)
  | Some [] => (w, None)
  | Some name =>
      match language_of (extension name) with
      | None => (w, Some (str "Please use .c or .cpp extensions."))
      | Some lang =>
          let newFile := FileNode.mk rnd name (skeleton lang) lang in
          (useEffect_persist (setActiveFileId rnd (setFiles (files w ++ [newFile]) w)),
           None)
      end
  end.

(** Lines 94-103.  [confirm] is the answer to the confirmation, asked
    only when more than one file is left. *)
Definition deleteFile (id : jsstring) (confirm : bool) (w : World) : Outcome :=
  if (length (files w) <=? 1)%nat then Ok w
  else if negb confirm then Ok w
  else
    let remaining := filter (fun f => negb (has_id id f)) (files w) in
    let w1 := setFiles remaining w in
    if jsstring_eqb (activeFileId w) id then
      match remaining with
      | f :: _ => Ok (useEffect_persist (setActiveFileId (FileNode.id f) w1))
      | [] => TypeError w1            (* remaining[0] is undefined *)
      end
    else Ok (useEffect_persist w1).

Section Clock.

(** [Date.now()]: the n-th reading of the clock. *)
Variable Date_now : nat -> N.

(** Lines 44-46. *)
Definition addLine (content : jsstring) (type : TerminalLine.Kind) (w : World) : World :=
  mkWorld (files w) (activeFileId w)
          (terminalLines w ++ [TerminalLine.mk type content (Date_now (ticks w))])
          (isRunning w) (pending w) (localStorage w) (S (ticks w)).

(** Lines 105-108. *)
Definition saveFiles (w : World) : World :=
  addLine (str "System: Workspace saved to local storage.") TerminalLine.system
          (setItem (persist (files w)) w).

Definition suspend (t : Task) (w : World) : World :=
  setPending (pending w ++ [t]) w.

(** Lines 48-56: [runCode] up to its first [await]. *)
Definition runCode (w : World) : Outcome :=
  if isRunning w then Ok w
  else
    let w1 := setTerminalLines [] (setIsRunning true w) in
    match activeFile w with
    | None => TypeError w1          (* activeFile.name on undefined *)
    | Some f =>
        Ok (suspend (mkTask AwaitCompile (FileNode.name f))
              (addLine (str "$ g++ " ++ FileNode.name f ++ str " -o output")
                       TerminalLine.system w1))
    end.

(** Lines 57-68: [runCode] from one [await] to the next, or to its end. *)
Definition resume (t : Task) (w : World) : World :=
  match phase t with
  | AwaitCompile =>
      suspend (mkTask AwaitLink (fileName t))
        (addLine (str "Compiling " ++ fileName t ++ str "...") TerminalLine.output w)
  | AwaitLink =>
      suspend (mkTask AwaitExec (fileName t))
        (addLine (str "Linking objects...") TerminalLine.output w)
  | AwaitExec =>
      setIsRunning false
        (addLine (str "Process finished with exit code 0") TerminalLine.system
           (addLine (str "Note: This is a frontend simulation. Native system execution is restricted in the browser environment.")
                    TerminalLine.system
              (addLine (str "$ ./output") TerminalLine.system w)))
  end.

(** Taking the i-th element out of a list. *)
Fixpoint take_out {A} (i : nat) (l : list A) : option (A * list A) :=
  match l, i with
  | [], _ => None
  | x :: r, O => Some (x, r)
  | x :: r, S j => match take_out j r with
                   | Some (y, r') => Some (y, x :: r')
                   | None => None
                   end
  end.

(** What the user and the timers do to a mounted [App].  A click on a
    row is a click on a row of the latest render: its handler sees the
    current collection and pointer.  Rows are keyed by [file.id] (line
    132); as long as ids are pairwise distinct these are all the rows
    there are.  When two buffers carry one id React may keep a row of an
    older render, whose handlers see an older state: such clicks are not
    among these events. *)
Inductive Event :=
| ClickFile (row : nat)                       (* lines 130-137 *)
| ClickDelete (row : nat) (confirm : bool)    (* lines 142-147 *)
| ClickNew (answer : option jsstring) (rnd : jsstring)
| ClickSave
| ClickRun
| EditorChange (value : option jsstring)
| TimerFires (i : nat).                       (* the i-th suspended run resumes *)

Definition step (e : Event) (w : World) : Outcome :=
  match e with
  | ClickFile row =>
      match nth_error (files w) row with
      | Some f => Ok (setActiveFileId (FileNode.id f) w)
      | None => Ok w
      end
  | ClickDelete row confirm =>
      match nth_error (files w) row with
      | Some f => deleteFile (FileNode.id f) confirm w
      | None => Ok w
      end
  | ClickNew answer rnd => Ok (fst (createNewFile answer rnd w))
  | ClickSave => Ok (saveFiles w)
  | ClickRun => runCode w
  | EditorChange value => Ok (handleEditorChange value w)
  | TimerFires i =>
      match take_out i (pending w) with
      | Some (t, rest) => Ok (resume t (setPending rest w))
      | None => Ok w
      end
  end.

Fixpoint run (evs : list Event) (w : World) : Outcome :=
  match evs with
  | [] => Ok w
  | e :: evs' => match step e w with
                 | Ok w' => run evs' w'
                 | TypeError w' => TypeError w'
                 end
  end.

(** A run of the simulation with nothing else happening meanwhile: the
    click and the three timers. *)
Definition whole_run : list Event :=
  [ClickRun; TimerFires 0; TimerFires 0; TimerFires 0].

End Clock.

(** The first render (lines 25-31) and the effect after it.  [None]: the
    component does not mount (the initialiser throws, [files[0]] is
    undefined, or the stored value is not a [FileNode[]]). *)
Definition mount (saved : Slot) : option World :=
  match load saved with
  | Files (f :: fs) =>
      Some (mkWorld (f :: fs) (FileNode.id f) [] false [] (persist (f :: fs)) 0)
  | _ => None
  end.

(** The workspace of a first start, nothing stored. *)
Definition initial_world : World :=
  mkWorld INITIAL_FILES (str "1") [] false [] (persist INITIAL_FILES) 0.

(** The states the user can bring a mounted [App] to by the events above. *)
Definition reachable (Date_now : nat -> N) (w : World) : Prop :=
  exists saved w0 evs, mount saved = Some w0 /\ run Date_now evs w0 = Ok w.

(** The store operations of the claims on create and delete, with any id. *)
Inductive FileOp :=
| OpCreate (answer : option jsstring) (rnd : jsstring)
| OpDelete (id : jsstring) (confirm : bool).

Definition apply_op (o : FileOp) (w : World) : Outcome :=
  match o with
  | OpCreate answer rnd => Ok (fst (createNewFile answer rnd w))
  | OpDelete id confirm => deleteFile id confirm w
  end.

Fixpoint apply_ops (os : list FileOp) (w : World) : Outcome :=
  match os with
  | [] => Ok w
  | o :: os' => match apply_op o w with
                | Ok w' => apply_ops os' w'
                | TypeError w' => TypeError w'
                end
  end.

(** A created id is new when no buffer of the collection carries it. *)
Fixpoint fresh_ids (os : list FileOp) (w : World) : Prop :=
  match os with
  | [] => True
  | o :: os' =>
      match o with
      | OpCreate _ rnd => ~ In rnd (ids (files w))
      | OpDelete _ _ => True
      end /\
      match apply_op o w with
      | Ok w' => fresh_ids os' w'
      | TypeError _ => True
      end
  end.

(** The value [JSON.parse] builds for the text of one [FileNode]. *)
Definition file_value (f : FileNode.t) : JSON.value :=
  JSON.JObject
    [ (str "id", JSON.JString (FileNode.id f));
      (str "name", JSON.JString (FileNode.name f));
      (str "language", JSON.JString (language_text (FileNode.language f)));
      (str "content", JSON.JString (FileNode.content f)) ].

Ltac distinct_ids :=
  vm_compute; repeat constructor; simpl; intuition discriminate.

(** The six lines a run writes, for a file name and the number of clock
    readings taken before it starts. *)
Definition run_log (Date_now : nat -> N) (t0 : nat) (name : jsstring)
  : list TerminalLine.t :=
  [ TerminalLine.mk TerminalLine.system (str "$ g++ " ++ name ++ str " -o output")
                    (Date_now t0);
    TerminalLine.mk TerminalLine.output (str "Compiling " ++ name ++ str "...")
                    (Date_now (1 + t0)%nat);
    TerminalLine.mk TerminalLine.output (str "Linking objects...")
                    (Date_now (2 + t0)%nat);
    TerminalLine.mk TerminalLine.system (str "$ ./output") (Date_now (3 + t0)%nat);
    TerminalLine.mk TerminalLine.system
      (str "Note: This is a frontend simulation. Native system execution is restricted in the browser environment.")
      (Date_now (4 + t0)%nat);
    TerminalLine.mk TerminalLine.system (str "Process finished with exit code 0")
                    (Date_now (5 + t0)%nat) ].

(** The extensions the specification lists for [createFile]. *)
Definition accepted_extensions : list jsstring :=
  [str "c"; str "cpp"; str "h"; str "hpp"].

(** What holds of every state reached by the events above: the pointer
    names a buffer of the collection, and the flag is set exactly while
    one run is suspended. *)
Record Inv (w : World) : Prop := mkInv {
  inv_active : In (activeFileId w) (ids (files w));
  inv_flag : isRunning w = negb (match pending w with [] => true | _ => false end);
  inv_single : (List.length (pending w) <= 1)%nat
}.

(** ** What the render shows of the active buffer, and event kinds *)

(** Line 255: [activeFile.content.split('\n').length]. *)
Definition lineCount (content : jsstring) : nat := List.length (split nl content).

Definition is_timer (e : Event) : bool :=
  match e with
  | TimerFires _ => true
  | _ => false
  end.

(** The kinds of line the handlers write. *)
Definition written_kind (l : TerminalLine.t) : Prop :=
  TerminalLine.type l = TerminalLine.system \/ TerminalLine.type l = TerminalLine.output.

(** The buffer [handleEditorChange] puts in the place of [f] (line 41):
    [{ ...f, content: value }]. *)
Definition with_content (v : jsstring) (f : FileNode.t) : FileNode.t :=
  FileNode.mk (FileNode.id f) (FileNode.name f) v (FileNode.language f).

(** The timestamps of the log are clock readings taken one after the
    other, all of them among the readings taken so far. *)
Definition stamped (Date_now : nat -> N) (w : World) : Prop :=
  exists ks,
    map TerminalLine.timestamp (terminalLines w) = map Date_now ks /\
    StronglySorted lt ks /\
    Forall (fun k => (k < ticks w)%nat) ks.

(** Events that write nothing to the log while a run is in progress:
    all but the timers and a click on save. *)
Definition is_save (e : Event) : bool :=
  match e with
  | ClickSave => true
  | _ => false
  end.

Definition quiet (evs : list Event) : bool :=
  forallb (fun e => negb (is_timer e) && negb (is_save e)) evs.

(** Along a sequence of events, every id drawn for a creation is carried
    by no buffer of the collection at that time. *)
Fixpoint fresh_draws (Date_now : nat -> N) (evs : list Event) (w : World) : Prop :=
  match evs with
  | [] => True
  | e :: evs' =>
      match e with
      | ClickNew _ rnd => ~ In rnd (ids (files w))
      | _ => True
      end /\
      match step Date_now e w with
      | Ok w' => fresh_draws Date_now evs' w'
      | TypeError _ => True
      end
  end.

(** Every line of the log is stamped with a clock reading numbered [t0]
    or later. *)
Definition read_since (Date_now : nat -> N) (t0 : nat) (w : World) : Prop :=
  (t0 <= ticks w)%nat /\
  exists ks,
    map TerminalLine.timestamp (terminalLines w) = map Date_now ks /\
    Forall (fun k => (t0 <= k < ticks w)%nat) ks.

(* ================================================================== *)
(** * Properties *)

(** ** Strings *)

Lemma jsstring_eqb_eq a b : jsstring_eqb a b = true <-> a = b.
Proof.
  revert b; induction a as [|x a IH]; intros [|y b]; simpl; split;
    try congruence; try reflexivity.
  - intros H. apply andb_true_iff in H as [Hx Hr].
    apply N.eqb_eq in Hx. apply IH in Hr. congruence.
  - intros H. injection H as -> ->. rewrite N.eqb_refl. simpl. now apply IH.
Qed.

Lemma jsstring_eqb_refl a : jsstring_eqb a a = true.
Proof. now apply jsstring_eqb_eq. Qed.

Lemma jsstring_eqb_neq a b : jsstring_eqb a b = false <-> a <> b.
Proof.
  split.
  - intros H E. apply jsstring_eqb_eq in E. congruence.
  - intros H. destruct (jsstring_eqb a b) eqn:E; [|reflexivity].
    apply jsstring_eqb_eq in E. contradiction.
Qed.

(** ** The active buffer *)

Lemma find_has_id_none id fs :
  find (has_id id) fs = None <-> ~ In id (ids fs).
Proof.
  unfold ids. induction fs as [|f fs IH]; simpl.
  - tauto.
  - unfold has_id at 1. destruct (jsstring_eqb (FileNode.id f) id) eqn:E.
    + apply jsstring_eqb_eq in E. split; [discriminate|]. intros H. exfalso. auto.
    + apply jsstring_eqb_neq in E. rewrite IH. tauto.
Qed.

Lemma find_has_id_some id fs f :
  find (has_id id) fs = Some f -> In f fs /\ FileNode.id f = id.
Proof.
  intros H. apply find_some in H as [Hin Hid]. split; [assumption|].
  now apply jsstring_eqb_eq.
Qed.

Lemma activeFile_some w :
  files w <> [] -> exists f, activeFile w = Some f /\ In f (files w).
Proof.
  intros Hne. unfold activeFile.
  destruct (find (has_id (activeFileId w)) (files w)) as [f|] eqn:E.
  - exists f. split; [reflexivity|]. now apply find_has_id_some in E.
  - destruct (files w) as [|f fs]; [contradiction|]. exists f. simpl. auto.
Qed.

Lemma Inv_files_nonempty w : Inv w -> files w <> [].
Proof.
  intros [Ha _ _] E. rewrite E in Ha. exact Ha.
Qed.

(** ** The invariant of mounted states *)

Lemma ids_edit id v fs :
  ids (map (fun f => if has_id id f
                     then FileNode.mk (FileNode.id f) (FileNode.name f) v
                                      (FileNode.language f)
                     else f) fs) = ids fs.
Proof.
  unfold ids. rewrite map_map. apply map_ext. intros f.
  now destruct (has_id id f).
Qed.

Lemma Inv_mount saved w : mount saved = Some w -> Inv w.
Proof.
  unfold mount. destruct (load saved) as [[|f fs]| |]; try discriminate.
  intros H. injection H as <-. split; simpl; auto.
Qed.

Lemma Inv_handleEditorChange value w : Inv w -> Inv (handleEditorChange value w).
Proof.
  intros [Ha Hf Hs]. destruct value as [v|]; [|now split].
  split; simpl; auto. now rewrite ids_edit.
Qed.

Lemma Inv_createNewFile answer rnd w : Inv w -> Inv (fst (createNewFile answer rnd w)).
Proof.
  intros HI. unfold createNewFile.
  destruct answer as [[|u name]|]; simpl; auto.
  destruct (language_of (extension (u :: name))); simpl; auto.
  destruct HI as [Ha Hf Hs]. split; simpl; auto.
  unfold ids. rewrite map_app. apply in_or_app. right. simpl. auto.
Qed.

Lemma in_ids_filter id x fs :
  In x (ids fs) -> x <> id -> In x (ids (filter (fun f => negb (has_id id f)) fs)).
Proof.
  unfold ids. intros Hin Hne. apply in_map_iff in Hin as [f [Hid Hf]].
  apply in_map_iff. exists f. split; [assumption|].
  apply filter_In. split; [assumption|].
  unfold has_id. rewrite Hid. apply negb_true_iff. now apply jsstring_eqb_neq.
Qed.

Lemma Inv_deleteFile id confirm w w' :
  Inv w -> deleteFile id confirm w = Ok w' -> Inv w'.
Proof.
  intros [Ha Hf Hs]. unfold deleteFile.
  destruct (List.length (files w) <=? 1)%nat; [intros H; injection H as <-; now split|].
  destruct confirm; simpl; [|intros H; injection H as <-; now split].
  destruct (jsstring_eqb (activeFileId w) id) eqn:E.
  - destruct (filter _ (files w)) as [|f r] eqn:Er; [discriminate|].
    intros H. injection H as <-. split; simpl; auto.
  - intros H. injection H as <-. split; simpl; auto.
    apply in_ids_filter; [assumption|]. now apply jsstring_eqb_neq.
Qed.

Lemma take_out_single {A} i (l : list A) t rest :
  (List.length l <= 1)%nat -> take_out i l = Some (t, rest) -> l = [t] /\ rest = [].
Proof.
  destruct l as [|x [|y l]]; simpl; intros Hl H; try lia.
  - destruct i; discriminate.
  - destruct i as [|[|j]]; simpl in H; try discriminate.
    injection H as <- <-. auto.
Qed.

Section Steps.

Variable Date_now : nat -> N.

Lemma Inv_saveFiles w : Inv w -> Inv (saveFiles Date_now w).
Proof. intros [Ha Hf Hs]. now split. Qed.

Lemma Inv_runCode w w' : Inv w -> runCode Date_now w = Ok w' -> Inv w'.
Proof.
  intros [Ha Hf Hs]. unfold runCode.
  destruct (isRunning w) eqn:Er;
    [intros H; injection H as <-; split; auto; congruence|].
  destruct (activeFile w) as [f|]; [|discriminate].
  intros H. injection H as <-.
  destruct (pending w) eqn:Ep; [|discriminate].
  split; simpl; auto. now rewrite Ep. rewrite Ep. simpl. lia.
Qed.

Lemma Inv_timer i w : Inv w -> forall w', step Date_now (TimerFires i) w = Ok w' -> Inv w'.
Proof.
  intros [Ha Hf Hs] w'. simpl.
  destruct (take_out i (pending w)) as [[t rest]|] eqn:Et;
    [|intros H; injection H as <-; now split].
  destruct (take_out_single _ _ _ _ Hs Et) as [Hp ->].
  rewrite Hp in Hf. simpl in Hf.
  intros H. injection H as <-. unfold resume.
  destruct (phase t); split; simpl; auto.
Qed.

Lemma Inv_step e w w' : Inv w -> step Date_now e w = Ok w' -> Inv w'.
Proof.
  intros HI. destruct e as [row|row confirm|answer rnd| | |value|i].
  - simpl. destruct (nth_error (files w) row) as [f|] eqn:En;
      intros H; injection H as <-; [|assumption].
    destruct HI as [Ha Hf Hs]. split; simpl; auto.
    unfold ids. apply in_map. eapply nth_error_In; eassumption.
  - simpl. destruct (nth_error (files w) row) as [f|];
      [apply Inv_deleteFile; assumption | intros H; injection H as <-; assumption].
  - simpl. intros H. injection H as <-. now apply Inv_createNewFile.
  - simpl. intros H. injection H as <-. now apply Inv_saveFiles.
  - simpl. now apply Inv_runCode.
  - simpl. intros H. injection H as <-. now apply Inv_handleEditorChange.
  - now apply Inv_timer.
Qed.

Lemma Inv_run evs : forall w w', Inv w -> run Date_now evs w = Ok w' -> Inv w'.
Proof.
  induction evs as [|e evs IH]; simpl; intros w w' HI H.
  - now injection H as <-.
  - destruct (step Date_now e w) as [w1|w1] eqn:Es; [|discriminate].
    eapply IH; [|eassumption]. eapply Inv_step; eassumption.
Qed.

Lemma reachable_Inv w : reachable Date_now w -> Inv w.
Proof.
  intros (saved & w0 & evs & Hm & Hr).
  eapply Inv_run; [|eassumption]. eapply Inv_mount; eassumption.
Qed.

Lemma Inv_idle w : Inv w -> isRunning w = false -> pending w = [].
Proof.
  intros [_ Hf _] Hr. rewrite Hr in Hf. now destruct (pending w).
Qed.

End Steps.

Lemma reachable_initial Date_now : reachable Date_now initial_world.
Proof. exists None, initial_world, []. split; reflexivity. Qed.

(** ** Claims on the active buffer and on selection *)

(** C10: in every state whose buffer collection is not empty the derived
    active buffer exists and is a buffer of the collection: the first one
    carrying the id of the pointer, and the first buffer of the collection
    when no buffer carries it; so [runCode], the handler that reads its
    name, does not throw. *)
Theorem activeFile_total (Date_now : nat -> N) (w : World) :
  files w <> [] ->
  exists f, activeFile w = Some f /\ In f (files w) /\
    (In (activeFileId w) (ids (files w)) -> FileNode.id f = activeFileId w) /\
    (~ In (activeFileId w) (ids (files w)) -> hd_error (files w) = Some f) /\
    exists w', runCode Date_now w = Ok w'.
Proof.
  intros Hne. destruct (activeFile_some w Hne) as [f [Hf Hin]].
  exists f. repeat split; try assumption.
  - intros Hid. unfold activeFile in Hf.
    destruct (find (has_id (activeFileId w)) (files w)) as [g|] eqn:E.
    + injection Hf as <-. now apply find_has_id_some in E.
    + apply find_has_id_none in E. contradiction.
  - intros Hid. unfold activeFile in Hf.
    apply find_has_id_none in Hid. now rewrite Hid in Hf.
  - unfold runCode. destruct (isRunning w); [now exists w|].
    rewrite Hf. eauto.
Qed.

Lemma activeFile_total_witness :
  exists f, activeFile (setActiveFileId (str "gone") initial_world) = Some f /\
            hd_error INITIAL_FILES = Some f.
Proof.
  destruct (activeFile_total (fun _ => 0) (setActiveFileId (str "gone") initial_world))
    as [f [Hf [_ [_ [Hhd _]]]]].
  - discriminate.
  - exists f. split; [exact Hf|]. apply Hhd. vm_compute. intuition discriminate.
Defined.

(** C8, as the code has it: [setActiveFileId] is the state setter itself;
    for an id that no buffer carries it stores that id in the pointer and
    changes nothing else, and the derived active buffer is then the first
    buffer of the collection. *)
Theorem setActiveFileId_absent_id (id : jsstring) (w : World) :
  ~ In id (ids (files w)) ->
  activeFileId (setActiveFileId id w) = id /\
  files (setActiveFileId id w) = files w /\
  terminalLines (setActiveFileId id w) = terminalLines w /\
  isRunning (setActiveFileId id w) = isRunning w /\
  pending (setActiveFileId id w) = pending w /\
  localStorage (setActiveFileId id w) = localStorage w /\
  activeFile (setActiveFileId id w) = hd_error (files w).
Proof.
  intros Hid. repeat split.
  unfold activeFile. simpl. apply find_has_id_none in Hid. now rewrite Hid.
Qed.

Lemma setActiveFileId_absent_id_witness :
  activeFileId (setActiveFileId (str "gone") initial_world) = str "gone" /\
  activeFile (setActiveFileId (str "gone") initial_world) = hd_error INITIAL_FILES.
Proof.
  destruct (setActiveFileId_absent_id (str "gone") initial_world) as [H1 [_ [_ [_ [_ [_ H2]]]]]].
  - vm_compute. intuition discriminate.
  - split; [exact H1 | exact H2].
Defined.

(** C8 as stated fails: selecting an id that no buffer of the initial
    workspace carries changes the pointer. *)
Lemma setActiveFileId_absent_id_changes_pointer :
  ~ In (str "gone") (ids (files initial_world)) /\
  activeFileId initial_world = str "1" /\
  activeFileId (setActiveFileId (str "gone") initial_world) = str "gone" /\
  setActiveFileId (str "gone") initial_world <> initial_world.
Proof.
  repeat split; try reflexivity.
  - vm_compute. intuition discriminate.
  - intros H. apply (f_equal activeFileId) in H. vm_compute in H. discriminate.
Qed.

(** ** Claims on creating files *)

Lemma language_of_rejects name :
  (forall e, extension name = Some e -> ~ In e accepted_extensions) ->
  language_of (extension name) = None.
Proof.
  intros H. destruct (extension name) as [e|]; [|reflexivity].
  specialize (H e eq_refl). unfold language_of.
  destruct (jsstring_eqb e (str "c")) eqn:E1;
    [apply jsstring_eqb_eq in E1; subst e; exfalso; apply H; simpl; auto|].
  destruct (jsstring_eqb e (str "cpp")) eqn:E2;
    [apply jsstring_eqb_eq in E2; subst e; exfalso; apply H; simpl; auto|].
  destruct (jsstring_eqb e (str "h")) eqn:E3;
    [apply jsstring_eqb_eq in E3; subst e; exfalso; apply H; simpl; auto|].
  destruct (jsstring_eqb e (str "hpp")) eqn:E4;
    [apply jsstring_eqb_eq in E4; subst e; exfalso; apply H; simpl; auto|].
  reflexivity.
Qed.

(** C5, as the code has it: for every non-empty file name whose extension
    (the part after its last dot, the whole name when it has no dot, in
    lower case) is none of c, cpp, h and hpp, [createNewFile] shows its
    alert, returns, and leaves the whole state as it was: the collection
    and the pointer are unchanged. *)
Theorem createNewFile_bad_extension (name rnd : jsstring) (w : World) :
  name <> [] ->
  (forall e, extension name = Some e -> ~ In e accepted_extensions) ->
  createNewFile (Some name) rnd w = (w, Some (str "Please use .c or .cpp extensions.")).
Proof.
  intros Hne Hext. unfold createNewFile.
  destruct name as [|u name]; [contradiction|].
  now rewrite (language_of_rejects _ Hext).
Qed.

Lemma createNewFile_bad_extension_witness :
  createNewFile (Some (str "notes.txt")) (str "k3x9") initial_world
  = (initial_world, Some (str "Please use .c or .cpp extensions.")).
Proof.
  apply createNewFile_bad_extension.
  - discriminate.
  - intros e He. vm_compute in He. injection He as <-.
    vm_compute. intuition discriminate.
Defined.

(** C5 as stated fails on the empty name: its extension is none of the
    four, yet no error is reported (the guard of line 73 returns before
    the extension is looked at). *)
Lemma createNewFile_empty_name_silent :
  (forall e, extension [] = Some e -> ~ In e accepted_extensions) /\
  createNewFile (Some []) (str "k3x9") initial_world = (initial_world, None).
Proof.
  split; [|reflexivity].
  intros e He. vm_compute in He. injection He as <-.
  vm_compute. intuition discriminate.
Qed.

(** ** Claims on the simulated run *)

Section Run.

Variable Date_now : nat -> N.

(** An uninterrupted run from an idle state, computed. *)
Lemma whole_run_result w f :
  Inv w -> isRunning w = false -> activeFile w = Some f ->
  run Date_now whole_run w
  = Ok (mkWorld (files w) (activeFileId w)
                (run_log Date_now (ticks w) (FileNode.name f))
                false [] (localStorage w) (6 + ticks w)).
Proof.
  intros HI Hr Hf. pose proof (Inv_idle w HI Hr) as Hp.
  unfold whole_run, run, step, runCode. rewrite Hr, Hf.
  unfold suspend, addLine, setPending, setTerminalLines, setIsRunning.
  cbn [pending files activeFileId terminalLines isRunning localStorage ticks].
  rewrite Hp.
  cbn [app take_out resume phase fileName suspend addLine setPending setIsRunning
       pending files activeFileId terminalLines isRunning localStorage ticks].
  reflexivity.
Qed.

Lemma contains_middle (a b c : jsstring) : contains (a ++ b ++ c) b.
Proof. now exists a, c. Qed.

(** The handlers of the workspace store leave the console and the run
    alone. *)
Lemma deleteFile_frame id confirm w w' :
  deleteFile id confirm w = Ok w' ->
  terminalLines w' = terminalLines w /\ isRunning w' = isRunning w /\
  pending w' = pending w.
Proof.
  unfold deleteFile.
  destruct (List.length (files w) <=? 1)%nat; [intros H; injection H as <-; auto|].
  destruct confirm; simpl; [|intros H; injection H as <-; auto].
  destruct (jsstring_eqb (activeFileId w) id).
  - destruct (filter _ (files w)); [discriminate|].
    intros H; injection H as <-; auto.
  - intros H; injection H as <-; auto.
Qed.

Lemma createNewFile_frame answer rnd w :
  terminalLines (fst (createNewFile answer rnd w)) = terminalLines w /\
  isRunning (fst (createNewFile answer rnd w)) = isRunning w /\
  pending (fst (createNewFile answer rnd w)) = pending w.
Proof.
  unfold createNewFile. destruct answer as [[|u name]|]; simpl; auto.
  destruct (language_of (extension (u :: name))); simpl; auto.
Qed.

Lemma handleEditorChange_frame value w :
  terminalLines (handleEditorChange value w) = terminalLines w /\
  isRunning (handleEditorChange value w) = isRunning w /\
  pending (handleEditorChange value w) = pending w.
Proof. destruct value; simpl; auto. Qed.

(** While a run is in progress every event leaves the lines already in
    the log where they are and as they are. *)
Lemma step_appends e w w' :
  isRunning w = true -> step Date_now e w = Ok w' ->
  exists added, terminalLines w' = terminalLines w ++ added.
Proof.
  intros Hr. destruct e as [row|row confirm|answer rnd| | |value|i]; simpl.
  - destruct (nth_error (files w) row); intros H; injection H as <-;
      exists []; simpl; now rewrite app_nil_r.
  - destruct (nth_error (files w) row).
    + intros H. apply deleteFile_frame in H as [-> _]. exists []. now rewrite app_nil_r.
    + intros H; injection H as <-. exists []. now rewrite app_nil_r.
  - intros H; injection H as <-. destruct (createNewFile_frame answer rnd w) as [-> _].
    exists []. now rewrite app_nil_r.
  - intros H; injection H as <-. simpl. eauto.
  - unfold runCode. rewrite Hr. intros H; injection H as <-.
    exists []. now rewrite app_nil_r.
  - intros H; injection H as <-. destruct (handleEditorChange_frame value w) as [-> _].
    exists []. now rewrite app_nil_r.
  - destruct (take_out i (pending w)) as [[t rest]|];
      [|intros H; injection H as <-; exists []; now rewrite app_nil_r].
    intros H; injection H as <-. unfold resume.
    destruct (phase t); simpl; try (eexists; reflexivity).
    rewrite <- !app_assoc. simpl. eexists; reflexivity.
Qed.

(** The flag rises only when a run starts and falls only when the run
    that is suspended at its last [await] resumes. *)
Lemma flag_rises e w w' :
  isRunning w = false -> step Date_now e w = Ok w' -> isRunning w' = true ->
  e = ClickRun.
Proof.
  intros Hr. destruct e as [row|row confirm|answer rnd| | |value|i]; simpl;
    try reflexivity.
  - destruct (nth_error (files w) row); intros H; injection H as <-; simpl; congruence.
  - destruct (nth_error (files w) row).
    + intros H. apply deleteFile_frame in H as [_ [-> _]]. congruence.
    + intros H; injection H as <-. congruence.
  - intros H; injection H as <-. destruct (createNewFile_frame answer rnd w) as [_ [-> _]].
    congruence.
  - intros H; injection H as <-. simpl. congruence.
  - intros H; injection H as <-. destruct (handleEditorChange_frame value w) as [_ [-> _]].
    congruence.
  - destruct (take_out i (pending w)) as [[t rest]|];
      [|intros H; injection H as <-; congruence].
    intros H; injection H as <-. unfold resume.
    destruct (phase t); simpl; congruence.
Qed.

Lemma flag_falls e w w' :
  Inv w -> isRunning w = true -> step Date_now e w = Ok w' -> isRunning w' = false ->
  exists i name, e = TimerFires i /\ pending w = [mkTask AwaitExec name].
Proof.
  intros HI Hr. destruct e as [row|row confirm|answer rnd| | |value|i]; simpl.
  - destruct (nth_error (files w) row); intros H; injection H as <-; simpl; congruence.
  - destruct (nth_error (files w) row).
    + intros H. apply deleteFile_frame in H as [_ [-> _]]. congruence.
    + intros H; injection H as <-. congruence.
  - intros H; injection H as <-. destruct (createNewFile_frame answer rnd w) as [_ [-> _]].
    congruence.
  - intros H; injection H as <-. simpl. congruence.
  - unfold runCode. rewrite Hr. intros H; injection H as <-. congruence.
  - intros H; injection H as <-. destruct (handleEditorChange_frame value w) as [_ [-> _]].
    congruence.
  - destruct (take_out i (pending w)) as [[t rest]|] eqn:Et;
      [|intros H; injection H as <-; congruence].
    destruct (take_out_single _ _ _ _ (inv_single w HI) Et) as [Hp ->].
    intros H; injection H as <-. unfold resume.
    destruct t as [[| |] name]; simpl; try congruence.
    intros _. exists i, name. now rewrite Hp.
Qed.

End Run.

(** C1, as the code has it: from every reachable state in which no run is
    in progress, a run of the simulation on the active file, with nothing
    else happening meanwhile, completes and leaves exactly six lines in
    the log (the script writes six, not five); the first is a system line
    whose content contains the name of the active file, the last is a
    system line reporting exit code 0. *)
Theorem runCode_writes_six_lines (Date_now : nat -> N) (w : World) :
  reachable Date_now w ->
  isRunning w = false ->
  exists f w' first final,
    activeFile w = Some f /\
    run Date_now whole_run w = Ok w' /\
    isRunning w' = false /\
    List.length (terminalLines w') = 6%nat /\
    nth_error (terminalLines w') 0 = Some first /\
    TerminalLine.type first = TerminalLine.system /\
    contains (TerminalLine.content first) (FileNode.name f) /\
    nth_error (terminalLines w') 5 = Some final /\
    TerminalLine.type final = TerminalLine.system /\
    TerminalLine.content final = str "Process finished with exit code 0".
Proof.
  intros Hreach Hr. pose proof (reachable_Inv _ _ Hreach) as HI.
  destruct (activeFile_some w (Inv_files_nonempty w HI)) as [f [Hf _]].
  exists f. eexists. eexists. eexists.
  split; [exact Hf|].
  split; [exact (whole_run_result Date_now w f HI Hr Hf)|].
  cbn [terminalLines isRunning run_log nth_error List.length TerminalLine.type
       TerminalLine.content].
  repeat split. apply contains_middle.
Qed.

Lemma runCode_writes_six_lines_witness :
  exists w', run (fun n => N.of_nat n) whole_run initial_world = Ok w' /\
             List.length (terminalLines w') = 6%nat.
Proof.
  destruct (runCode_writes_six_lines (fun n => N.of_nat n) initial_world)
    as (f & w' & first & final & _ & Hrun & _ & Hlen & _).
  - apply reachable_initial.
  - reflexivity.
  - exists w'. split; [exact Hrun | exact Hlen].
Defined.

(** C1 as stated fails: a run on main.cpp from the initial workspace
    leaves six lines in the log, not five. *)
Lemma runCode_log_is_not_five_lines :
  isRunning initial_world = false /\
  exists w', run (fun n => N.of_nat n) whole_run initial_world = Ok w' /\
             List.length (terminalLines w') = 6%nat /\
             List.length (terminalLines w') <> 5%nat.
Proof.
  split; [reflexivity|].
  eexists. split; [vm_compute; reflexivity|].
  split; [reflexivity | discriminate].
Qed.

(** C9: in every reachable state the running flag is set exactly while a
    run is suspended, that is, started and not yet completed (and there
    is never more than one); a call of [runCode] made while the flag is
    set returns at once and leaves the state as it is; the flag is
    raised only by the start of a run and lowered only by the resumption
    that completes one; and a run started with the flag down has it up
    after the start and after each of the first two resumptions, and
    down after the third, which ends it. *)
Theorem isRunning_spans_the_run (Date_now : nat -> N) (w : World) :
  reachable Date_now w ->
  (isRunning w = true <-> pending w <> []) /\
  (List.length (pending w) <= 1)%nat /\
  (isRunning w = true -> runCode Date_now w = Ok w) /\
  (forall e w', isRunning w = false -> step Date_now e w = Ok w' ->
                isRunning w' = true -> e = ClickRun) /\
  (forall e w', isRunning w = true -> step Date_now e w = Ok w' ->
                isRunning w' = false ->
                exists i name, e = TimerFires i /\ pending w = [mkTask AwaitExec name]) /\
  (isRunning w = false ->
   exists w1 w2 w3 w4,
     step Date_now ClickRun w = Ok w1 /\ isRunning w1 = true /\
     step Date_now (TimerFires 0) w1 = Ok w2 /\ isRunning w2 = true /\
     step Date_now (TimerFires 0) w2 = Ok w3 /\ isRunning w3 = true /\
     step Date_now (TimerFires 0) w3 = Ok w4 /\ isRunning w4 = false /\
     pending w4 = []).
Proof.
  intros Hreach. pose proof (reachable_Inv _ _ Hreach) as HI.
  split; [|split; [|split; [|split; [|split]]]].
  - rewrite (inv_flag w HI). destruct (pending w); simpl; split; congruence.
  - exact (inv_single w HI).
  - intros Hr. unfold runCode. now rewrite Hr.
  - intros e w'. apply flag_rises.
  - intros e w'. now apply flag_falls.
  - intros Hr. pose proof (Inv_idle w HI Hr) as Hp.
    destruct (activeFile_some w (Inv_files_nonempty w HI)) as [f [Hf _]].
    do 4 eexists.
    unfold step, runCode. rewrite Hr, Hf.
    unfold suspend, addLine, setPending, setTerminalLines, setIsRunning.
    cbn [pending files activeFileId terminalLines isRunning localStorage ticks].
    rewrite Hp.
    cbn [app take_out resume phase fileName suspend addLine setPending setIsRunning
         pending files activeFileId terminalLines isRunning localStorage ticks].
    repeat split.
Qed.

Lemma isRunning_spans_the_run_witness :
  exists w1, step (fun n => N.of_nat n) ClickRun initial_world = Ok w1 /\
             isRunning w1 = true /\
             runCode (fun n => N.of_nat n) w1 = Ok w1.
Proof.
  destruct (isRunning_spans_the_run (fun n => N.of_nat n) initial_world
              (reachable_initial _))
    as (_ & _ & _ & _ & _ & Hchain).
  destruct (Hchain eq_refl) as (w1 & w2 & w3 & w4 & Hs & Hr & _).
  exists w1. split; [exact Hs|]. split; [exact Hr|].
  unfold runCode. now rewrite Hr.
Defined.

(** ** Claims on deleting files *)

Lemma NoDup_ids_filter (p : FileNode.t -> bool) fs :
  NoDup (ids fs) -> NoDup (ids (filter p fs)).
Proof.
  unfold ids. induction fs as [|f fs IH]; simpl; intros H; [constructor|].
  inversion H as [|x l Hnin Hnd]; subst.
  destruct (p f); simpl; [|auto].
  constructor; [|auto].
  intros Hin. apply Hnin. apply in_map_iff in Hin as [g [Hg Hin]].
  apply in_map_iff. exists g. split; [assumption|].
  now apply filter_In in Hin.
Qed.

Lemma NoDup_snoc {A} (l : list A) x : NoDup l -> ~ In x l -> NoDup (l ++ [x]).
Proof.
  induction l as [|y l IH]; simpl; intros Hnd Hnin.
  - constructor; [tauto | constructor].
  - inversion Hnd as [|z l' Hy Hl]; subst. constructor.
    + intros Hin. apply in_app_or in Hin as [Hin|[->|[]]]; tauto.
    + apply IH; tauto.
Qed.

(** With pairwise distinct ids, taking one id out of two or more buffers
    leaves a buffer. *)
Lemma remaining_nonempty id fs :
  (1 < List.length fs)%nat -> NoDup (ids fs) ->
  filter (fun f => negb (has_id id f)) fs <> [].
Proof.
  destruct fs as [|a [|b r]]; simpl; try lia. intros _ Hnd.
  inversion Hnd as [|x l Ha _]; subst. simpl in Ha.
  unfold has_id at 1.
  destruct (jsstring_eqb (FileNode.id a) id) eqn:Ea; simpl; [|discriminate].
  unfold has_id at 1.
  destruct (jsstring_eqb (FileNode.id b) id) eqn:Eb; simpl; [|discriminate].
  apply jsstring_eqb_eq in Ea, Eb. exfalso. apply Ha. left. congruence.
Qed.

Lemma deleteFile_refused_on_last id confirm w :
  List.length (files w) = 1%nat -> deleteFile id confirm w = Ok w.
Proof. intros H. unfold deleteFile. now rewrite H. Qed.

Lemma deleteFile_distinct id confirm w :
  files w <> [] -> NoDup (ids (files w)) ->
  exists w', deleteFile id confirm w = Ok w' /\ files w' <> [] /\
             NoDup (ids (files w')).
Proof.
  intros Hne Hnd. unfold deleteFile.
  destruct (List.length (files w) <=? 1)%nat eqn:El; [exists w; auto|].
  destruct confirm; simpl; [|exists w; auto].
  apply Nat.leb_gt in El.
  pose proof (remaining_nonempty id (files w) El Hnd) as Hrem.
  pose proof (NoDup_ids_filter (fun f => negb (has_id id f)) _ Hnd) as Hnd'.
  destruct (jsstring_eqb (activeFileId w) id).
  - destruct (filter _ (files w)) as [|f r] eqn:Er; [contradiction|].
    eexists. split; [reflexivity|]. simpl. split; [discriminate|assumption].
  - eexists. split; [reflexivity|]. simpl. split; assumption.
Qed.

Lemma createNewFile_distinct answer rnd w :
  files w <> [] -> NoDup (ids (files w)) -> ~ In rnd (ids (files w)) ->
  files (fst (createNewFile answer rnd w)) <> [] /\
  NoDup (ids (files (fst (createNewFile answer rnd w)))).
Proof.
  intros Hne Hnd Hfresh. unfold createNewFile.
  destruct answer as [[|u name]|]; simpl; auto.
  destruct (language_of (extension (u :: name))); simpl; auto.
  split.
  - intros H. apply app_eq_nil in H as [_ H]. discriminate.
  - unfold ids. rewrite map_app. simpl. now apply NoDup_snoc.
Qed.

Lemma apply_ops_distinct os : forall w,
  files w <> [] -> NoDup (ids (files w)) -> fresh_ids os w ->
  exists w', apply_ops os w = Ok w' /\ files w' <> [] /\ NoDup (ids (files w')).
Proof.
  induction os as [|o os IH]; intros w Hne Hnd Hfresh.
  - exists w. simpl. auto.
  - simpl in Hfresh. destruct Hfresh as [Ho Hrest]. simpl.
    destruct o as [answer rnd|id confirm]; simpl in *.
    + destruct (createNewFile_distinct answer rnd w Hne Hnd Ho) as [Hne' Hnd'].
      now apply IH.
    + destruct (deleteFile_distinct id confirm w Hne Hnd) as (w1 & Hd & Hne' & Hnd').
      rewrite Hd in *. now apply IH.
Qed.

Lemma fresh_ids_prefix os1 os2 : forall w,
  fresh_ids (os1 ++ os2) w -> fresh_ids os1 w.
Proof.
  induction os1 as [|o os1 IH]; intros w; simpl; [tauto|].
  intros [Ho Hrest]. split; [exact Ho|].
  destruct (apply_op o w); [now apply IH | exact I].
Qed.

(** C2, as the code has it: from the workspace of a start whose buffers
    have pairwise distinct ids, along every finite sequence of createFile
    and deleteFile operations in which the id drawn for each createFile
    is carried by no buffer of the collection at that time, every
    operation returns and the collection is never empty (ids are drawn at
    random and nothing in the code makes them distinct); and deleteFile
    on a collection of one buffer is refused, leaving the state
    unchanged. *)
Theorem create_delete_never_empty (saved : Slot) (w0 : World) (os : list FileOp) :
  mount saved = Some w0 ->
  NoDup (ids (files w0)) ->
  fresh_ids os w0 ->
  (forall os1 os2, os = os1 ++ os2 ->
                   exists w, apply_ops os1 w0 = Ok w /\ files w <> []) /\
  (forall id confirm v, List.length (files v) = 1%nat -> deleteFile id confirm v = Ok v).
Proof.
  intros Hm Hnd Hfresh. split.
  - intros os1 os2 ->. apply fresh_ids_prefix in Hfresh.
    pose proof (Inv_files_nonempty _ (Inv_mount _ _ Hm)) as Hne.
    destruct (apply_ops_distinct os1 w0 Hne Hnd Hfresh) as (w & Hw & Hne' & _).
    now exists w.
  - intros id confirm v. apply deleteFile_refused_on_last.
Qed.

Lemma create_delete_never_empty_witness :
  exists w,
    apply_ops [OpCreate (Some (str "utils.c")) (str "k3x9");
               OpDelete (str "2") true;
               OpDelete (str "k3x9") true;
               OpDelete (str "1") true] initial_world = Ok w /\
    files w <> [].
Proof.
  destruct (create_delete_never_empty None initial_world
              [OpCreate (Some (str "utils.c")) (str "k3x9");
               OpDelete (str "2") true;
               OpDelete (str "k3x9") true;
               OpDelete (str "1") true] eq_refl) as [Hseq _].
  - distinct_ids.
  - distinct_ids.
  - apply (Hseq _ []). now rewrite app_nil_r.
Defined.

(** C2 as stated fails: when two created buffers receive the same id
    (here i, the text drawn when [Math.random()] gives 0.5), deleting
    that id from a collection holding only those two passes the guard on
    the length, empties the collection, and the handler throws. *)
Lemma colliding_ids_empty_the_collection :
  exists w,
    apply_ops [OpCreate (Some (str "a.c")) (str "i");
               OpCreate (Some (str "b.c")) (str "i");
               OpDelete (str "1") true;
               OpDelete (str "2") true;
               OpDelete (str "i") true] initial_world = TypeError w /\
    files w = [].
Proof. eexists. split; vm_compute; reflexivity. Qed.





(** ** Reading back what [JSON.stringify] wrote *)

Module JSONFacts.
Import JSON.

Lemma feed_app a b st :
  feed (a ++ b) st = match feed a st with
                     | Some st' => feed b st'
                     | None => None
                     end.
Proof.
  revert st; induction a as [|u a IH]; intros st; simpl; [reflexivity|].
  destruct (step st u); [apply IH | reflexivity].
Qed.

Lemma hexval_hexdigit d : d < 16 -> hexval (hexdigit d) = Some d.
Proof.
  intros H.
  assert (E : d = 0 \/ d = 1 \/ d = 2 \/ d = 3 \/ d = 4 \/ d = 5 \/ d = 6 \/ d = 7 \/
              d = 8 \/ d = 9 \/ d = 10 \/ d = 11 \/ d = 12 \/ d = 13 \/ d = 14 \/
              d = 15) by lia.
  repeat (destruct E as [->|E]; [reflexivity|]). now subst.
Qed.

Lemma hex_digits_value u :
  u < 65536 ->
  (((0 * 16 + (u / 4096) mod 16) * 16 + (u / 256) mod 16) * 16 + (u / 16) mod 16) * 16
  + u mod 16 = u.
Proof.
  intros H.
  assert (H4096 : u / 4096 < 16) by (apply N.Div0.div_lt_upper_bound; lia).
  rewrite (N.mod_small (u / 4096) 16) by assumption.
  pose proof (N.div_mod u 16 ltac:(lia)) as E0.
  pose proof (N.div_mod (u / 16) 16 ltac:(lia)) as E1.
  pose proof (N.div_mod (u / 256) 16 ltac:(lia)) as E2.
  rewrite N.Div0.div_div in E1. rewrite N.Div0.div_div in E2.
  change (16 * 16) with 256 in E1. change (256 * 16) with 4096 in E2.
  lia.
Qed.

(** A [\uXXXX] escape read inside a string gives back the unit. *)
Lemma feed_UnicodeEscape u stk e acc :
  u < 65536 ->
  feed (UnicodeEscape u) (mkp stk e (InString acc))
  = Some (mkp stk e (InString (u :: acc))).
Proof.
  intros H. unfold UnicodeEscape.
  assert (H3 : (u / 4096) mod 16 < 16) by (apply N.mod_lt; lia).
  assert (H2 : (u / 256) mod 16 < 16) by (apply N.mod_lt; lia).
  assert (H1 : (u / 16) mod 16 < 16) by (apply N.mod_lt; lia).
  assert (H0 : u mod 16 < 16) by (apply N.mod_lt; lia).
  cbn [feed step lx stack exp]. change (92 =? 34) with false. change (92 =? 92) with true.
  cbn [feed step lx stack exp].
  change (117 =? 34) with false. change (117 =? 92) with false.
  change (117 =? 47) with false. change (117 =? 98) with false.
  change (117 =? 102) with false. change (117 =? 110) with false.
  change (117 =? 114) with false. change (117 =? 116) with false.
  change (117 =? 117) with true.
  cbn [feed step lx stack exp].
  rewrite (hexval_hexdigit _ H3). cbn [feed step lx stack exp].
  rewrite (hexval_hexdigit _ H2). cbn [feed step lx stack exp].
  rewrite (hexval_hexdigit _ H1). cbn [feed step lx stack exp].
  rewrite (hexval_hexdigit _ H0). cbn [feed step lx stack exp].
  now rewrite (hex_digits_value u H).
Qed.

Lemma feed_verbatim u stk e acc :
  (u =? 34) = false -> (u =? 92) = false -> (u <? 32) = false ->
  feed [u] (mkp stk e (InString acc)) = Some (mkp stk e (InString (u :: acc))).
Proof.
  intros H1 H2 H3. cbn [feed step lx stack exp]. now rewrite H1, H2, H3.
Qed.

(** One unit, as [quote_unit] writes it, read inside a string. *)
Lemma feed_quote_unit u stk e acc :
  feed (quote_unit u) (mkp stk e (InString acc))
  = Some (mkp stk e (InString (u :: acc))).
Proof.
  unfold quote_unit.
  destruct (u =? 8) eqn:E8; [apply N.eqb_eq in E8; subst; reflexivity|].
  destruct (u =? 9) eqn:E9; [apply N.eqb_eq in E9; subst; reflexivity|].
  destruct (u =? 10) eqn:E10; [apply N.eqb_eq in E10; subst; reflexivity|].
  destruct (u =? 12) eqn:E12; [apply N.eqb_eq in E12; subst; reflexivity|].
  destruct (u =? 13) eqn:E13; [apply N.eqb_eq in E13; subst; reflexivity|].
  destruct (u =? 34) eqn:E34; [apply N.eqb_eq in E34; subst; reflexivity|].
  destruct (u =? 92) eqn:E92; [apply N.eqb_eq in E92; subst; reflexivity|].
  destruct (u <? 32) eqn:E32.
  { apply feed_UnicodeEscape. apply N.ltb_lt in E32. lia. }
  destruct (is_high_surrogate u || is_low_surrogate u) eqn:Es.
  { apply feed_UnicodeEscape. unfold is_high_surrogate, is_low_surrogate in Es.
    apply orb_true_iff in Es as [Es|Es]; apply andb_true_iff in Es as [_ Es];
      apply N.leb_le in Es; lia. }
  now apply feed_verbatim.
Qed.

Lemma surrogate_verbatim u :
  is_high_surrogate u = true \/ is_low_surrogate u = true ->
  (u =? 34) = false /\ (u =? 92) = false /\ (u <? 32) = false.
Proof.
  unfold is_high_surrogate, is_low_surrogate.
  intros [H|H]; apply andb_true_iff in H as [H _]; apply N.leb_le in H;
    repeat split; try (apply N.eqb_neq; lia); apply N.ltb_ge; lia.
Qed.

(** The body of a quoted string, read inside a string, adds the units
    of the string. *)
Lemma feed_quote_body_bounded n : forall s stk e acc,
  (List.length s <= n)%nat ->
  feed (quote_body s) (mkp stk e (InString acc))
  = Some (mkp stk e (InString (rev s ++ acc))).
Proof.
  induction n as [|n IH]; intros s stk e acc Hn.
  - destruct s; [reflexivity | simpl in Hn; lia].
  - destruct s as [|u r]; [reflexivity|].
    simpl in Hn.
    assert (Hone : feed (quote_unit u ++ quote_body r) (mkp stk e (InString acc))
                   = Some (mkp stk e (InString (rev (u :: r) ++ acc)))).
    { rewrite feed_app, feed_quote_unit, IH by lia.
      simpl. now rewrite <- app_assoc. }
    cbn [quote_body].
    destruct (is_high_surrogate u) eqn:Eh; [|exact Hone].
    destruct r as [|lo r']; [|destruct (is_low_surrogate lo) eqn:El; [|exact Hone]].
    + rewrite app_nil_r in Hone. exact Hone.
    + destruct (surrogate_verbatim u (or_introl Eh)) as (A1 & A2 & A3).
      destruct (surrogate_verbatim lo (or_intror El)) as (B1 & B2 & B3).
      change (u :: lo :: quote_body r') with ([u] ++ [lo] ++ quote_body r').
      rewrite feed_app, (feed_verbatim u) by assumption.
      rewrite feed_app, (feed_verbatim lo) by assumption.
      simpl in Hn. rewrite IH by lia.
      simpl. now rewrite <- !app_assoc.
Qed.

Lemma feed_quote_body s stk e acc :
  feed (quote_body s) (mkp stk e (InString acc))
  = Some (mkp stk e (InString (rev s ++ acc))).
Proof. now apply (feed_quote_body_bounded (List.length s)). Qed.

Lemma feed_closing_quote rest stk e acc :
  feed (34 :: rest) (mkp stk e (InString acc))
  = match finish_string (rev acc) (mkp stk e (InString acc)) with
    | Some st => feed rest st
    | None => None
    end.
Proof. reflexivity. Qed.

Lemma feed_quoted s stk e rest :
  feed [34] (mkp stk e Idle) = Some (mkp stk e (InString [])) ->
  feed (QuoteJSONString s ++ rest) (mkp stk e Idle)
  = match finish_string s (mkp stk e (InString (rev s))) with
    | Some st => feed rest st
    | None => None
    end.
Proof.
  intros H0. unfold QuoteJSONString, dq.
  change (34 :: quote_body s ++ [34]) with ([34] ++ quote_body s ++ [34]).
  rewrite <- !app_assoc.
  rewrite feed_app, H0, feed_app, feed_quote_body, app_nil_r.
  change ([34] ++ rest) with (34 :: rest).
  now rewrite feed_closing_quote, rev_involutive.
Qed.

(** A quoted string where a value may begin is that string, handed to
    the enclosing array or object member. *)
Lemma feed_string_value s stk rest :
  feed (QuoteJSONString s ++ rest) (mkp stk XValue Idle)
  = match deliver (JString s) stk with
    | Some st => feed rest st
    | None => None
    end.
Proof. now rewrite feed_quoted. Qed.

(** A quoted string where a member name is due is that name. *)
Lemma feed_string_key s done k e rest :
  e = XKeyOrClose \/ e = XKey ->
  feed (QuoteJSONString s ++ rest) (mkp (FObject done None :: k) e Idle)
  = feed rest (mkp (FObject done (Some s) :: k) XColon Idle).
Proof.
  intros [-> | ->]; now rewrite feed_quoted.
Qed.

(** The punctuation of an array of objects. *)
Lemma feed_open_brace rest done k e :
  e = XValue \/ e = XValueOrClose ->
  feed (123 :: rest) (mkp (FArray done :: k) e Idle)
  = feed rest (mkp (FObject [] None :: FArray done :: k) XKeyOrClose Idle).
Proof. intros [-> | ->]; reflexivity. Qed.

Lemma feed_colon rest stk :
  feed (58 :: rest) (mkp stk XColon Idle) = feed rest (mkp stk XValue Idle).
Proof. reflexivity. Qed.

Lemma feed_member_comma rest done k :
  feed (44 :: rest) (mkp (FObject done None :: k) XCommaOrClose Idle)
  = feed rest (mkp (FObject done None :: k) XKey Idle).
Proof. reflexivity. Qed.

Lemma feed_close_brace rest done k :
  feed (125 :: rest) (mkp (FObject done None :: k) XCommaOrClose Idle)
  = match deliver (JObject (rev done)) k with
    | Some st => feed rest st
    | None => None
    end.
Proof. reflexivity. Qed.

Lemma feed_element_comma rest done k :
  feed (44 :: rest) (mkp (FArray done :: k) XCommaOrClose Idle)
  = feed rest (mkp (FArray done :: k) XValue Idle).
Proof. reflexivity. Qed.

Lemma feed_close_bracket done :
  feed [93] (mkp [FArray done] XCommaOrClose Idle)
  = Some (mkp [] (XEnd (JArray (rev done))) Idle).
Proof. reflexivity. Qed.

(** The text of one [FileNode], read as an element of an array. *)
Lemma feed_file f done k e rest :
  e = XValue \/ e = XValueOrClose ->
  feed (stringify_file f ++ rest) (mkp (FArray done :: k) e Idle)
  = feed rest (mkp (FArray (file_value f :: done) :: k) XCommaOrClose Idle).
Proof.
  intros He. unfold stringify_file. rewrite <- !app_assoc. cbn [app].
  rewrite (feed_open_brace _ _ _ _ He).
  rewrite feed_string_key by auto. rewrite feed_colon, feed_string_value.
  cbn [deliver]. rewrite feed_member_comma.
  rewrite feed_string_key by auto. rewrite feed_colon, feed_string_value.
  cbn [deliver]. rewrite feed_member_comma.
  rewrite feed_string_key by auto. rewrite feed_colon, feed_string_value.
  cbn [deliver]. rewrite feed_member_comma.
  rewrite feed_string_key by auto. rewrite feed_colon, feed_string_value.
  cbn [deliver]. rewrite feed_close_brace. reflexivity.
Qed.

Lemma feed_elems fs : forall f done k e rest,
  e = XValue \/ e = XValueOrClose ->
  feed (stringify_elems (f :: fs) ++ rest) (mkp (FArray done :: k) e Idle)
  = feed rest (mkp (FArray (rev (map file_value (f :: fs)) ++ done) :: k)
                   XCommaOrClose Idle).
Proof.
  induction fs as [|g fs IH]; intros f done k e rest He.
  - cbn [stringify_elems]. now rewrite feed_file.
  - change (stringify_elems (f :: g :: fs))
      with (stringify_file f ++ [44] ++ stringify_elems (g :: fs)).
    rewrite <- !app_assoc. rewrite feed_file by assumption.
    cbn [app]. rewrite feed_element_comma. rewrite IH by auto.
    change (map file_value (f :: g :: fs))
      with (file_value f :: map file_value (g :: fs)).
    cbn [rev]. now rewrite <- !app_assoc.
Qed.

(** [JSON.parse] reads the text of a [FileNode[]] as the array of the
    values of its elements. *)
Lemma parse_stringify fs :
  parse (JSON_stringify fs) = Some (JArray (map file_value fs)).
Proof.
  destruct fs as [|f fs]; [reflexivity|].
  unfold parse, JSON_stringify. cbn [app].
  change (feed (91 :: stringify_elems (f :: fs) ++ [93]) initial)
    with (feed (stringify_elems (f :: fs) ++ [93])
               (mkp [FArray []] XValueOrClose Idle)).
  rewrite feed_elems by auto. rewrite app_nil_r, feed_close_bracket.
  cbn [finish lx exp]. now rewrite rev_involutive.
Qed.

Lemma as_file_value f : as_file (file_value f) = Some f.
Proof. destruct f as [i n ct [|]]; reflexivity. Qed.

Lemma as_files_values fs : as_files (JArray (map file_value fs)) = Some fs.
Proof.
  simpl. induction fs as [|f fs IH]; [reflexivity|].
  cbn [map as_files_list]. now rewrite as_file_value, IH.
Qed.

End JSONFacts.

(** ** Claims on loading and persisting *)

(** C6: for every collection of file buffers, what [load] returns for the
    slot written by [persist] is that collection: the same buffers in
    the same order, with the same id, name, language and content. *)
Theorem load_persist (fs : list FileNode.t) : load (persist fs) = Files fs.
Proof.
  unfold load, persist, JSON_stringify. cbn [app].
  change (91 :: stringify_elems fs ++ [93]) with (JSON_stringify fs).
  now rewrite JSONFacts.parse_stringify, JSONFacts.as_files_values.
Qed.

(** C4, as the code has it: when the slot is absent, or holds the empty
    string, [load] returns the built-in seed set of two files, main.cpp
    and header.h; when it holds a non-empty text that is not well-formed
    JSON, [JSON.parse] throws a SyntaxError that nothing catches, so
    [load] fails and the component does not mount. *)
Theorem load_absent_or_malformed (text : jsstring) :
  text <> [] ->
  JSON.parse text = None ->
  load None = Files INITIAL_FILES /\
  load (Some []) = Files INITIAL_FILES /\
  map FileNode.name INITIAL_FILES = [str "main.cpp"; str "header.h"] /\
  load (Some text) = SyntaxError /\
  mount (Some text) = None.
Proof.
  intros Hne Hp. repeat split.
  - unfold load. destruct text; [contradiction|]. now rewrite Hp.
  - unfold mount, load. destruct text; [contradiction|]. now rewrite Hp.
Qed.

Lemma load_absent_or_malformed_witness :
  load None = Files INITIAL_FILES /\ load (Some (str "{")) = SyntaxError.
Proof.
  destruct (load_absent_or_malformed (str "{")) as (H1 & _ & _ & H2 & _).
  - discriminate.
  - reflexivity.
  - split; [exact H1 | exact H2].
Defined.

(** C4 as stated fails: a slot holding text that is not JSON makes
    [load] throw instead of returning the seed set. *)
Lemma load_malformed_throws :
  JSON.parse (str "{") = None /\
  load (Some (str "{")) = SyntaxError /\
  load (Some (str "{")) <> Files INITIAL_FILES /\
  mount (Some (str "{")) = None.
Proof. repeat split. discriminate. Qed.


(* ================================================================== *)
(** * Further properties of the handlers *)

(** ** What holds of every reachable state *)

Section Reachable.

Variable Date_now : nat -> N.

Lemma reachable_step e w w' :
  reachable Date_now w -> step Date_now e w = Ok w' -> reachable Date_now w'.
Proof.
  intros (saved & w0 & evs & Hm & Hr) Hs.
  exists saved, w0, (evs ++ [e]). split; [exact Hm|].
  clear Hm. revert w0 Hr. induction evs as [|e0 evs IH]; simpl; intros w0 Hr.
  - injection Hr as ->. now rewrite Hs.
  - destruct (step Date_now e0 w0); [now apply IH | discriminate].
Qed.

(** The slot follows the collection. *)
Lemma sync_step e w w' :
  localStorage w = persist (files w) -> step Date_now e w = Ok w' ->
  localStorage w' = persist (files w').
Proof.
  intros Hs. destruct e as [row|row confirm|answer rnd| | |value|i]; simpl.
  - destruct (nth_error (files w) row); intros H; injection H as <-; assumption.
  - destruct (nth_error (files w) row); [|intros H; injection H as <-; assumption].
    unfold deleteFile.
    destruct (List.length (files w) <=? 1)%nat; [intros H; injection H as <-; assumption|].
    destruct confirm; simpl; [|intros H; injection H as <-; assumption].
    destruct (jsstring_eqb (activeFileId w) (FileNode.id t)).
    + destruct (filter _ (files w)); [discriminate|].
      intros H; injection H as <-; reflexivity.
    + intros H; injection H as <-; reflexivity.
  - intros H; injection H as <-. unfold createNewFile.
    destruct answer as [[|u name]|]; simpl; auto.
    destruct (language_of (extension (u :: name))); simpl; auto.
  - intros H; injection H as <-. reflexivity.
  - unfold runCode. destruct (isRunning w); [intros H; injection H as <-; assumption|].
    destruct (activeFile w); [|discriminate].
    intros H; injection H as <-. assumption.
  - intros H; injection H as <-. destruct value; [reflexivity | assumption].
  - destruct (take_out i (pending w)) as [[t rest]|];
      [|intros H; injection H as <-; assumption].
    intros H; injection H as <-. unfold resume. destruct (phase t); assumption.
Qed.

Lemma sync_run evs : forall w w',
  localStorage w = persist (files w) -> run Date_now evs w = Ok w' ->
  localStorage w' = persist (files w').
Proof.
  induction evs as [|e evs IH]; simpl; intros w w' Hs H.
  - now injection H as <-.
  - destruct (step Date_now e w) as [w1|w1] eqn:Es; [|discriminate].
    eapply IH; [|eassumption]. eapply sync_step; eassumption.
Qed.

Lemma reachable_sync w :
  reachable Date_now w -> localStorage w = persist (files w).
Proof.
  intros (saved & w0 & evs & Hm & Hr). eapply sync_run; [|eassumption].
  unfold mount in Hm. destruct (load saved) as [[|f fs]| |]; try discriminate.
  now injection Hm as <-.
Qed.

(** The handlers write system and output lines only. *)
Lemma written_kind_addLine content type w :
  type = TerminalLine.system \/ type = TerminalLine.output ->
  Forall written_kind (terminalLines w) ->
  Forall written_kind (terminalLines (addLine Date_now content type w)).
Proof.
  intros Ht Hk. simpl. apply Forall_app. split; [assumption|].
  constructor; [exact Ht | constructor].
Qed.

Lemma written_kind_step e w w' :
  Forall written_kind (terminalLines w) -> step Date_now e w = Ok w' ->
  Forall written_kind (terminalLines w').
Proof.
  intros Hk. destruct e as [row|row confirm|answer rnd| | |value|i]; simpl.
  - destruct (nth_error (files w) row); intros H; injection H as <-; assumption.
  - destruct (nth_error (files w) row); [|intros H; injection H as <-; assumption].
    intros H. apply deleteFile_frame in H as [-> _]. assumption.
  - intros H; injection H as <-. now destruct (createNewFile_frame answer rnd w) as [-> _].
  - intros H; injection H as <-. apply written_kind_addLine; auto.
  - unfold runCode. destruct (isRunning w); [intros H; injection H as <-; assumption|].
    destruct (activeFile w); [|discriminate].
    intros H; injection H as <-.
    apply (written_kind_addLine _ _ (setTerminalLines [] (setIsRunning true w))); auto.
  - intros H; injection H as <-. now destruct (handleEditorChange_frame value w) as [-> _].
  - destruct (take_out i (pending w)) as [[t rest]|];
      [|intros H; injection H as <-; assumption].
    intros H; injection H as <-. unfold resume.
    destruct (phase t).
    + apply (written_kind_addLine _ _ (setPending rest w)); auto.
    + apply (written_kind_addLine _ _ (setPending rest w)); auto.
    + apply (written_kind_addLine _ _
               (addLine Date_now _ _ (addLine Date_now _ _ (setPending rest w)))); auto.
      apply written_kind_addLine; auto.
      apply (written_kind_addLine _ _ (setPending rest w)); auto.
Qed.

Lemma written_kind_run evs : forall w w',
  Forall written_kind (terminalLines w) -> run Date_now evs w = Ok w' ->
  Forall written_kind (terminalLines w').
Proof.
  induction evs as [|e evs IH]; simpl; intros w w' Hs H.
  - now injection H as <-.
  - destruct (step Date_now e w) as [w1|w1] eqn:Es; [|discriminate].
    eapply IH; [|eassumption]. eapply written_kind_step; eassumption.
Qed.

End Reachable.

Lemma load_written fs : load (Some (JSON_stringify fs)) = Files fs.
Proof.
  unfold load, JSON_stringify. cbn [app].
  change (91 :: stringify_elems fs ++ [93]) with (JSON_stringify fs).
  now rewrite JSONFacts.parse_stringify, JSONFacts.as_files_values.
Qed.

Lemma run_reachable Date_now evs w :
  run Date_now evs initial_world = Ok w -> reachable Date_now w.
Proof. intros H. now exists None, initial_world, evs. Qed.

(** With pairwise distinct ids and a pointer that names a buffer, no
    handler throws, and a creation that draws a new id keeps the ids
    distinct. *)
Lemma step_distinct Date_now e w :
  Inv w -> NoDup (ids (files w)) ->
  match e with
  | ClickNew _ rnd => ~ In rnd (ids (files w))
  | _ => True
  end ->
  exists w', step Date_now e w = Ok w' /\ NoDup (ids (files w')).
Proof.
  intros HI Hnd Hfresh. pose proof (Inv_files_nonempty w HI) as Hne.
  destruct e as [row|row confirm|answer rnd| | |value|i]; simpl.
  - destruct (nth_error (files w) row); eexists; split; try reflexivity; assumption.
  - destruct (nth_error (files w) row) as [f|]; [|now exists w].
    destruct (deleteFile_distinct (FileNode.id f) confirm w Hne Hnd)
      as (w' & Hd & _ & Hnd'). now exists w'.
  - eexists. split; [reflexivity|].
    exact (proj2 (createNewFile_distinct answer rnd w Hne Hnd Hfresh)).
  - eexists. split; [reflexivity|]. assumption.
  - unfold runCode. destruct (isRunning w); [now exists w|].
    destruct (activeFile_some w Hne) as [f [-> _]].
    eexists. split; [reflexivity|]. assumption.
  - eexists. split; [reflexivity|].
    destruct value as [v|]; [|assumption]. simpl. now rewrite ids_edit.
  - destruct (take_out i (pending w)) as [[t rest]|]; [|now exists w].
    eexists. split; [reflexivity|]. unfold resume. destruct (phase t); assumption.
Qed.

Lemma run_distinct Date_now evs : forall w,
  Inv w -> NoDup (ids (files w)) -> fresh_draws Date_now evs w ->
  exists w', run Date_now evs w = Ok w' /\ Inv w' /\ NoDup (ids (files w')).
Proof.
  induction evs as [|e evs IH]; intros w HI Hnd Hfresh.
  - exists w. simpl. auto.
  - simpl in Hfresh. destruct Hfresh as [He Hrest]. simpl.
    destruct (step_distinct Date_now e w HI Hnd He) as (w1 & Hs & Hnd1).
    rewrite Hs in *. apply IH; try assumption.
    eapply Inv_step; eassumption.
Qed.

(** X1: from a start whose buffers have pairwise distinct ids, along
    every sequence of events in which each id drawn for a creation is
    carried by no buffer at that time, every handler returns, and in the
    state reached the collection is not empty, its ids are pairwise
    distinct, the pointer is the id of one of its buffers, and the active
    buffer is the buffer carrying that id. *)
Theorem distinct_ids_keep_pointer_valid
        (Date_now : nat -> N) (saved : Slot) (w0 : World) (evs : list Event) :
  mount saved = Some w0 ->
  NoDup (ids (files w0)) ->
  fresh_draws Date_now evs w0 ->
  exists w,
    run Date_now evs w0 = Ok w /\
    files w <> [] /\
    NoDup (ids (files w)) /\
    In (activeFileId w) (ids (files w)) /\
    exists f, activeFile w = Some f /\ In f (files w) /\ FileNode.id f = activeFileId w.
Proof.
  intros Hm Hnd Hfresh.
  destruct (run_distinct Date_now evs w0 (Inv_mount _ _ Hm) Hnd Hfresh)
    as (w & Hr & HI & Hnd').
  exists w. split; [exact Hr|].
  split; [exact (Inv_files_nonempty w HI)|].
  split; [exact Hnd'|].
  split; [exact (inv_active w HI)|].
  unfold activeFile.
  destruct (find (has_id (activeFileId w)) (files w)) as [f|] eqn:E.
  - exists f. split; [reflexivity|]. now apply find_has_id_some in E.
  - apply find_has_id_none in E. destruct (E (inv_active w HI)).
Qed.

Lemma distinct_ids_keep_pointer_valid_witness :
  exists w,
    run (fun _ => 0) [ClickNew (Some (str "utils.c")) (str "k3x9");
                      ClickDelete 0 true;
                      ClickFile 0;
                      ClickDelete 0 true] initial_world = Ok w /\
    In (activeFileId w) (ids (files w)).
Proof.
  destruct (distinct_ids_keep_pointer_valid (fun _ => 0) None initial_world
              [ClickNew (Some (str "utils.c")) (str "k3x9");
               ClickDelete 0 true;
               ClickFile 0;
               ClickDelete 0 true] eq_refl) as (w & Hr & _ & _ & Hin & _).
  - distinct_ids.
  - distinct_ids.
  - exists w. split; [exact Hr | exact Hin].
Defined.

(** X2: in every reachable state every line of the log is of kind system
    or output: no handler writes a line of kind error or input. *)
Theorem reachable_log_kinds (Date_now : nat -> N) (w : World) :
  reachable Date_now w ->
  Forall written_kind (terminalLines w).
Proof.
  intros (saved & w0 & evs & Hm & Hr).
  eapply written_kind_run; [|eassumption].
  unfold mount in Hm. destruct (load saved) as [[|f fs]| |]; try discriminate.
  injection Hm as <-. constructor.
Qed.

Lemma reachable_log_kinds_witness :
  exists w, run (fun _ => 0) (ClickSave :: whole_run) initial_world = Ok w /\
            Forall written_kind (terminalLines w).
Proof.
  destruct (run (fun _ => 0) (ClickSave :: whole_run) initial_world) as [w|w] eqn:E;
    [|vm_compute in E; discriminate].
  exists w. split; [reflexivity|].
  exact (reachable_log_kinds _ w (run_reachable _ _ _ E)).
Defined.

(** X3: in every reachable state the slot holds the serialisation of the
    current collection; so [saveFiles] leaves the slot as it is, and all
    it changes is the log, which gains one system line. *)
Theorem reachable_slot_in_sync (Date_now : nat -> N) (w : World) :
  reachable Date_now w ->
  localStorage w = persist (files w) /\
  localStorage (saveFiles Date_now w) = localStorage w /\
  files (saveFiles Date_now w) = files w /\
  activeFileId (saveFiles Date_now w) = activeFileId w /\
  isRunning (saveFiles Date_now w) = isRunning w /\
  terminalLines (saveFiles Date_now w)
  = terminalLines w ++
    [TerminalLine.mk TerminalLine.system
                     (str "System: Workspace saved to local storage.")
                     (Date_now (ticks w))].
Proof.
  intros Hreach. pose proof (reachable_sync _ _ Hreach) as Hs.
  repeat split; try assumption. simpl. now rewrite Hs.
Qed.

Lemma reachable_slot_in_sync_witness :
  exists w, run (fun _ => 0) [EditorChange (Some (str "int x;")); ClickFile 1]
                initial_world = Ok w /\
            localStorage w = persist (files w).
Proof.
  destruct (run (fun _ => 0) [EditorChange (Some (str "int x;")); ClickFile 1]
                initial_world) as [w|w] eqn:E; [|vm_compute in E; discriminate].
  exists w. split; [reflexivity|].
  exact (proj1 (reachable_slot_in_sync _ w (run_reachable _ _ _ E))).
Defined.

(** X4: mounting again from the slot of any reachable state gives the
    same collection, buffer for buffer; the pointer is back on the first
    buffer, the log is empty and no run is in progress. *)
Theorem reload_restores_collection (Date_now : nat -> N) (w : World) :
  reachable Date_now w ->
  exists f rest,
    files w = f :: rest /\
    mount (localStorage w)
    = Some (mkWorld (files w) (FileNode.id f) [] false [] (persist (files w)) 0).
Proof.
  intros Hreach. pose proof (reachable_sync _ _ Hreach) as Hs.
  pose proof (Inv_files_nonempty _ (reachable_Inv _ _ Hreach)) as Hne.
  destruct (files w) as [|f rest] eqn:Ef; [contradiction|].
  exists f, rest. split; [reflexivity|].
  rewrite Hs. unfold mount, persist. now rewrite load_written.
Qed.

Lemma reload_restores_collection_witness :
  exists w w',
    run (fun _ => 0) [ClickNew (Some (str "utils.c")) (str "k3x9")] initial_world = Ok w /\
    mount (localStorage w) = Some w' /\ files w' = files w.
Proof.
  destruct (run (fun _ => 0) [ClickNew (Some (str "utils.c")) (str "k3x9")]
                initial_world) as [w|w] eqn:E; [|vm_compute in E; discriminate].
  destruct (reload_restores_collection _ w (run_reachable _ _ _ E))
    as (f & rest & Hf & Hm).
  exists w. eexists. split; [reflexivity|]. split; [exact Hm | reflexivity].
Defined.

(** ** Which handler can throw *)

Lemma filter_nil_all {A} (p : A -> bool) l :
  filter p l = [] -> forall x, In x l -> p x = false.
Proof.
  intros Hnil x Hin. destruct (p x) eqn:E; [|reflexivity].
  assert (Hx : In x (filter p l)) by (apply filter_In; auto).
  rewrite Hnil in Hx. destruct Hx.
Qed.

(** X5: [deleteFile] throws exactly when the deletion is confirmed, the
    collection holds two or more buffers, the id is the one the pointer
    holds, and every buffer of the collection carries that id (so that
    nothing remains and [remaining[0]] is undefined).  In particular it
    never throws when two buffers have different ids. *)
Theorem deleteFile_throws_exactly (id : jsstring) (confirm : bool) (w : World) :
  (exists w', deleteFile id confirm w = TypeError w') <->
  confirm = true /\
  (1 < List.length (files w))%nat /\
  activeFileId w = id /\
  forall g, In g (files w) -> FileNode.id g = id.
Proof.
  unfold deleteFile. split.
  - intros [w' H].
    destruct (List.length (files w) <=? 1)%nat eqn:El; [discriminate|].
    destruct confirm; simpl in H; [|discriminate].
    destruct (jsstring_eqb (activeFileId w) id) eqn:Ea; [|discriminate].
    destruct (filter _ (files w)) as [|g r] eqn:Er; [|discriminate].
    apply jsstring_eqb_eq in Ea. apply Nat.leb_gt in El.
    repeat split; auto.
    intros g Hg. pose proof (filter_nil_all _ _ Er g Hg) as Hp.
    apply negb_false_iff in Hp. now apply jsstring_eqb_eq in Hp.
  - intros (-> & Hlen & Ha & Hall).
    apply Nat.leb_gt in Hlen. rewrite Hlen. simpl.
    apply jsstring_eqb_eq in Ha. rewrite Ha.
    assert (Hnil : filter (fun f => negb (has_id id f)) (files w) = []).
    { clear -Hall. induction (files w) as [|g fs IH]; [reflexivity|]. simpl.
      unfold has_id at 1. rewrite (Hall g (or_introl eq_refl)), jsstring_eqb_refl.
      simpl. apply IH. intros h Hh. apply Hall. now right. }
    rewrite Hnil. eauto.
Qed.

(** ** Deleting *)

Lemma filter_absent id fs :
  ~ In id (ids fs) -> filter (fun f => negb (has_id id f)) fs = fs.
Proof.
  unfold ids. induction fs as [|f fs IH]; simpl; intros H; [reflexivity|].
  unfold has_id at 1.
  destruct (jsstring_eqb (FileNode.id f) id) eqn:E.
  - apply jsstring_eqb_eq in E. tauto.
  - simpl. rewrite IH; tauto.
Qed.

Lemma filter_removes_one id fs :
  NoDup (ids fs) -> In id (ids fs) ->
  S (List.length (filter (fun f => negb (has_id id f)) fs)) = List.length fs.
Proof.
  unfold ids. induction fs as [|f fs IH]; simpl; intros Hnd Hin; [destruct Hin|].
  inversion Hnd as [|x l Hnin Hnd']; subst.
  unfold has_id at 1.
  destruct (jsstring_eqb (FileNode.id f) id) eqn:E; simpl.
  - apply jsstring_eqb_eq in E. subst id.
    now rewrite (filter_absent _ fs Hnin).
  - apply jsstring_eqb_neq in E. destruct Hin as [Hin|Hin]; [contradiction|].
    now rewrite IH.
Qed.


(** X6: with pairwise distinct ids, a confirmed deletion of a listed id
    from a collection of two or more buffers returns, removes exactly the
    buffer with that id and keeps the others in their order: the
    collection is one shorter and no buffer carries the id any more. *)
Theorem deleteFile_removes_one (id : jsstring) (w : World) :
  NoDup (ids (files w)) ->
  In id (ids (files w)) ->
  (1 < List.length (files w))%nat ->
  exists w',
    deleteFile id true w = Ok w' /\
    files w' = filter (fun f => negb (has_id id f)) (files w) /\
    S (List.length (files w')) = List.length (files w) /\
    ~ In id (ids (files w')) /\
    localStorage w' = persist (files w').
Proof.
  intros Hnd Hin Hlen.
  pose proof (remaining_nonempty id (files w) Hlen Hnd) as Hrem.
  assert (Hfiles : exists w', deleteFile id true w = Ok w' /\
            files w' = filter (fun f => negb (has_id id f)) (files w) /\
            localStorage w' = persist (files w')).
  { unfold deleteFile. apply Nat.leb_gt in Hlen. rewrite Hlen. simpl.
    destruct (jsstring_eqb (activeFileId w) id).
    - destruct (filter _ (files w)) as [|f r] eqn:Er; [contradiction|].
      eexists. split; [reflexivity|]. simpl. auto.
    - eexists. split; [reflexivity|]. simpl. auto. }
  destruct Hfiles as (w' & Hd & Hf & Hs). exists w'.
  split; [exact Hd|]. split; [exact Hf|]. rewrite Hf.
  split; [now apply filter_removes_one|]. split; [|now rewrite <- Hf].
  unfold ids. intros H. apply in_map_iff in H as (g & Hg & Hing).
  apply filter_In in Hing as [_ Hp]. unfold has_id in Hp.
  apply negb_true_iff in Hp. apply jsstring_eqb_neq in Hp. contradiction.
Qed.

Lemma deleteFile_removes_one_witness :
  exists w',
    deleteFile (str "2") true initial_world = Ok w' /\
    List.length (files w') = 1%nat.
Proof.
  destruct (deleteFile_removes_one (str "2") initial_world)
    as (w' & Hd & _ & Hlen & _).
  - distinct_ids.
  - vm_compute. auto.
  - vm_compute. lia.
  - exists w'. split; [exact Hd|]. simpl in Hlen. lia.
Defined.





(** ** Selecting and editing *)

Lemma find_own_id fs f :
  NoDup (ids fs) -> In f fs -> find (has_id (FileNode.id f)) fs = Some f.
Proof.
  unfold ids. induction fs as [|g fs IH]; simpl; intros Hnd Hin; [destruct Hin|].
  inversion Hnd as [|x l Hnin Hnd']; subst.
  destruct (has_id (FileNode.id f) g) eqn:E.
  - destruct Hin as [->|Hin]; [reflexivity|].
    unfold has_id in E. apply jsstring_eqb_eq in E.
    exfalso. apply Hnin. rewrite E. now apply in_map.
  - destruct Hin as [->|Hin]; [|now apply IH].
    unfold has_id in E. now rewrite jsstring_eqb_refl in E.
Qed.

(** X9: with pairwise distinct ids, a click on a row of the file list
    makes that row's buffer the active buffer and changes nothing in the
    collection. *)
Theorem ClickFile_selects_row (Date_now : nat -> N) (row : nat) (f : FileNode.t) (w : World) :
  NoDup (ids (files w)) ->
  nth_error (files w) row = Some f ->
  exists w',
    step Date_now (ClickFile row) w = Ok w' /\
    activeFileId w' = FileNode.id f /\
    activeFile w' = Some f /\
    files w' = files w /\ terminalLines w' = terminalLines w /\
    localStorage w' = localStorage w.
Proof.
  intros Hnd Hrow. simpl. rewrite Hrow. eexists. split; [reflexivity|].
  repeat split. unfold activeFile. simpl.
  now rewrite (find_own_id _ _ Hnd (nth_error_In _ _ Hrow)).
Qed.

Lemma ClickFile_selects_row_witness :
  exists w',
    step (fun _ => 0) (ClickFile 1) initial_world = Ok w' /\
    option_map FileNode.name (activeFile w') = Some (str "header.h").
Proof.
  destruct (ClickFile_selects_row (fun _ => 0) 1
              (FileNode.mk (str "2") (str "header.h")
                 (FileNode.content (nth 1 INITIAL_FILES (FileNode.mk [] [] [] FileNode.c)))
                 FileNode.cpp)
              initial_world) as (w' & Hs & _ & Ha & _).
  - distinct_ids.
  - reflexivity.
  - exists w'. split; [exact Hs|]. now rewrite Ha.
Defined.

Lemma has_id_with_content a v g : has_id a (with_content v g) = has_id a g.
Proof. reflexivity. Qed.

Lemma find_edit a v fs :
  find (has_id a) (map (fun g => if has_id a g then with_content v g else g) fs)
  = option_map (with_content v) (find (has_id a) fs).
Proof.
  induction fs as [|g fs IH]; simpl; [reflexivity|].
  destruct (has_id a g) eqn:E.
  - now rewrite has_id_with_content, E.
  - now rewrite E.
Qed.

(** X10: when the pointer names a buffer, an edit puts the new text in
    the active buffer, which keeps its id, name and language; the ids,
    names and languages of the collection, their order and the pointer
    are unchanged, every buffer with another id is left alone, and the
    slot is rewritten from the new collection. *)
Theorem handleEditorChange_sets_active_content (v : jsstring) (w : World) :
  In (activeFileId w) (ids (files w)) ->
  exists f,
    activeFile w = Some f /\
    activeFile (handleEditorChange (Some v) w) = Some (with_content v f) /\
    activeFileId (handleEditorChange (Some v) w) = activeFileId w /\
    ids (files (handleEditorChange (Some v) w)) = ids (files w) /\
    map FileNode.name (files (handleEditorChange (Some v) w))
    = map FileNode.name (files w) /\
    map FileNode.language (files (handleEditorChange (Some v) w))
    = map FileNode.language (files w) /\
    (forall g, In g (files w) -> FileNode.id g <> activeFileId w ->
               In g (files (handleEditorChange (Some v) w))) /\
    localStorage (handleEditorChange (Some v) w)
    = persist (files (handleEditorChange (Some v) w)).
Proof.
  intros Hact.
  destruct (find (has_id (activeFileId w)) (files w)) as [f|] eqn:E;
    [|apply find_has_id_none in E; contradiction].
  exists f. unfold activeFile. rewrite E. split; [reflexivity|].
  cbn [handleEditorChange useEffect_persist setItem setFiles files activeFileId
       localStorage].
  change (fun f0 => if has_id (activeFileId w) f0
                    then FileNode.mk (FileNode.id f0) (FileNode.name f0) v
                                     (FileNode.language f0)
                    else f0)
    with (fun g => if has_id (activeFileId w) g then with_content v g else g).
  rewrite find_edit, E. split; [reflexivity|]. split; [reflexivity|].
  split; [|split; [|split; [|split; [|reflexivity]]]].
  - unfold ids. rewrite map_map. apply map_ext. intros g. now destruct (has_id _ g).
  - rewrite map_map. apply map_ext. intros g. now destruct (has_id _ g).
  - rewrite map_map. apply map_ext. intros g. now destruct (has_id _ g).
  - intros g Hin Hne. apply in_map_iff. exists g. split; [|assumption].
    unfold has_id. apply jsstring_eqb_neq in Hne. now rewrite Hne.
Qed.

Lemma handleEditorChange_sets_active_content_witness :
  option_map FileNode.content
             (activeFile (handleEditorChange (Some (str "int x;")) initial_world))
  = Some (str "int x;").
Proof.
  destruct (handleEditorChange_sets_active_content (str "int x;") initial_world)
    as (f & _ & Ha & _).
  - vm_compute. auto.
  - now rewrite Ha.
Defined.

(** X11: when no buffer carries the id of the pointer, an edit is lost:
    the collection is left as it is, and so is the buffer the editor
    shows, the first of the collection. *)
Theorem handleEditorChange_dangling_pointer (value : option jsstring) (w : World) :
  ~ In (activeFileId w) (ids (files w)) ->
  files (handleEditorChange value w) = files w /\
  activeFile (handleEditorChange value w) = hd_error (files w).
Proof.
  intros Habs.
  assert (Hf : files (handleEditorChange value w) = files w).
  { destruct value as [v|]; [|reflexivity]. simpl.
    rewrite <- (map_id (files w)) at 2. apply map_ext_in. intros g Hg.
    destruct (has_id (activeFileId w) g) eqn:E; [|reflexivity].
    unfold has_id in E. apply jsstring_eqb_eq in E.
    exfalso. apply Habs. rewrite <- E. unfold ids. now apply in_map. }
  split; [exact Hf|].
  unfold activeFile. rewrite Hf.
  assert (Ha : activeFileId (handleEditorChange value w) = activeFileId w)
    by (destruct value; reflexivity).
  rewrite Ha. apply find_has_id_none in Habs. now rewrite Habs.
Qed.

Lemma handleEditorChange_dangling_pointer_witness :
  files (handleEditorChange (Some (str "lost")) (setActiveFileId (str "gone") initial_world))
  = INITIAL_FILES.
Proof.
  refine (proj1 (handleEditorChange_dangling_pointer (Some (str "lost"))
                   (setActiveFileId (str "gone") initial_world) _)).
  vm_compute. intuition discriminate.
Defined.

(** ** Creating *)

Lemma find_snoc {A} (p : A -> bool) l x :
  find p (l ++ [x]) = match find p l with
                      | Some y => Some y
                      | None => if p x then Some x else None
                      end.
Proof.
  induction l as [|y l IH]; simpl; [reflexivity|].
  now destruct (p y).
Qed.

(** X12: for a non-empty name whose extension the code accepts,
    [createNewFile] shows no alert, appends one buffer with the drawn id,
    that name, the language of the extension and the skeleton of that
    language, leaves the buffers already there in place, points the
    pointer at the drawn id and rewrites the slot.  The new buffer is the
    active buffer when no older buffer carries the drawn id; when one
    does, the active buffer is an older one. *)
Theorem createNewFile_appends (name rnd : jsstring) (lang : FileNode.Language) (w : World) :
  name <> [] ->
  language_of (extension name) = Some lang ->
  exists w',
    createNewFile (Some name) rnd w = (w', None) /\
    files w' = files w ++ [FileNode.mk rnd name (skeleton lang) lang] /\
    activeFileId w' = rnd /\
    localStorage w' = persist (files w') /\
    terminalLines w' = terminalLines w /\
    (~ In rnd (ids (files w)) ->
     activeFile w' = Some (FileNode.mk rnd name (skeleton lang) lang)) /\
    (In rnd (ids (files w)) ->
     exists f, activeFile w' = Some f /\ In f (files w)).
Proof.
  intros Hne Hl. unfold createNewFile.
  destruct name as [|u name]; [contradiction|]. rewrite Hl.
  eexists. split; [reflexivity|]. simpl.
  repeat split.
  - intros Hfresh. unfold activeFile. simpl. rewrite find_snoc.
    apply find_has_id_none in Hfresh. rewrite Hfresh.
    unfold has_id. simpl. now rewrite jsstring_eqb_refl.
  - intros Hold. unfold activeFile. simpl. rewrite find_snoc.
    destruct (find (has_id rnd) (files w)) as [f|] eqn:E.
    + exists f. split; [reflexivity|]. now apply find_has_id_some in E.
    + apply find_has_id_none in E. contradiction.
Qed.

Lemma createNewFile_appends_witness :
  exists w',
    createNewFile (Some (str "utils.C")) (str "k3x9") initial_world = (w', None) /\
    option_map FileNode.language (activeFile w') = Some FileNode.c /\
    List.length (files w') = 3%nat.
Proof.
  destruct (createNewFile_appends (str "utils.C") (str "k3x9") FileNode.c initial_world)
    as (w' & Hc & Hf & _ & _ & _ & Hfresh & _).
  - discriminate.
  - reflexivity.
  - exists w'. split; [exact Hc|]. split.
    + rewrite Hfresh; [reflexivity|]. vm_compute. intuition discriminate.
    + now rewrite Hf.
Defined.

(** ** The extension of a name and the line count *)

Lemma split_not_nil sep s : split sep s <> [].
Proof.
  destruct s as [|u r]; simpl; [discriminate|].
  destruct (u =? sep); [discriminate|].
  destruct (split sep r); discriminate.
Qed.

Lemma pop_cons {A} (x : A) l : l <> [] -> pop (x :: l) = pop l.
Proof. destruct l; [contradiction | reflexivity]. Qed.

Lemma split_no_sep sep s : ~ In sep s -> split sep s = [s].
Proof.
  induction s as [|u r IH]; simpl; intros H; [reflexivity|].
  destruct (N.eqb_spec u sep) as [->|Hne]; [tauto|].
  rewrite IH by tauto. reflexivity.
Qed.

Lemma split_after_sep sep b a :
  exists seg segs,
    split sep (a ++ sep :: b) = seg :: segs /\ segs <> [] /\
    pop segs = pop (split sep b).
Proof.
  induction a as [|u a IH]; simpl.
  - rewrite N.eqb_refl. exists [], (split sep b).
    split; [reflexivity|]. split; [apply split_not_nil | reflexivity].
  - destruct IH as (seg & segs & Hs & Hne & Hp). rewrite Hs.
    destruct (u =? sep).
    + exists [], (seg :: segs). split; [reflexivity|]. split; [discriminate|].
      now rewrite pop_cons.
    + exists (u :: seg), segs. auto.
Qed.

(** X13: the extension the code reads off a name is the part after its
    last dot, in lower case, and for a name with no dot it is the whole
    name in lower case: [createNewFile] treats a name such as cpp as one
    with extension cpp. *)
Theorem extension_is_last_segment (ext : jsstring) :
  ~ In 46 ext ->
  extension ext = Some (toLowerCase ext) /\
  forall base, extension (base ++ 46 :: ext) = Some (toLowerCase ext).
Proof.
  intros Hdot. unfold extension. split.
  - now rewrite (split_no_sep _ _ Hdot).
  - intros base. destruct (split_after_sep 46 ext base) as (seg & segs & Hs & Hne & Hp).
    rewrite Hs, pop_cons by assumption. rewrite Hp.
    now rewrite (split_no_sep _ _ Hdot).
Qed.

Lemma extension_is_last_segment_witness :
  extension (str "archive.tar.GZ") = Some (str "gz") /\
  language_of (extension (str "HPP")) = Some FileNode.cpp.
Proof.
  destruct (extension_is_last_segment (str "GZ")) as [_ H1];
    [vm_compute; intuition discriminate|].
  destruct (extension_is_last_segment (str "HPP")) as [H2 _];
    [vm_compute; intuition discriminate|].
  split; [exact (H1 (str "archive.tar")) | now rewrite H2].
Defined.

Lemma length_split sep s :
  List.length (split sep s) = S (count_occ N.eq_dec s sep).
Proof.
  induction s as [|u r IH]; simpl; [reflexivity|].
  destruct (N.eqb_spec u sep) as [->|Hne].
  - simpl. rewrite IH. now destruct (N.eq_dec sep sep).
  - destruct (N.eq_dec u sep) as [E|_]; [contradiction|].
    rewrite <- IH. destruct (split sep r) eqn:Es; [|reflexivity].
    now destruct (split_not_nil sep r).
Qed.

(** X14: the line count shown in the footer is one more than the number of
    newline units in the content; an empty buffer shows one line. *)
Theorem lineCount_counts_newlines (content : jsstring) :
  lineCount content = S (count_occ N.eq_dec content nl) /\ lineCount [] = 1%nat.
Proof. split; [apply length_split | reflexivity]. Qed.

(** ** The serialisation *)

(** X15: two collections with the same serialisation are the same
    collection: the slot determines every id, name, language and content,
    and the order of the buffers. *)
Theorem persist_injective (fs gs : list FileNode.t) :
  persist fs = persist gs -> fs = gs.
Proof.
  intros H.
  assert (Hl : load (persist fs) = load (persist gs)) by now rewrite H.
  unfold persist in Hl. rewrite !load_written in Hl. now injection Hl.
Qed.

Lemma persist_injective_witness :
  INITIAL_FILES = INITIAL_FILES.
Proof. exact (persist_injective INITIAL_FILES INITIAL_FILES eq_refl). Defined.

(** ** The run and the rest of the workspace *)

Section RunAndWorkspace.

Variable Date_now : nat -> N.

Lemma run_app evs1 evs2 w :
  run Date_now (evs1 ++ evs2) w
  = match run Date_now evs1 w with
    | Ok w1 => run Date_now evs2 w1
    | TypeError w1 => TypeError w1
    end.
Proof.
  revert w; induction evs1 as [|e evs1 IH]; intros w; simpl; [reflexivity|].
  destruct (step Date_now e w); [apply IH | reflexivity].
Qed.

(** The events of the simulation leave the workspace store alone. *)
Lemma simulation_step_frame e w w' :
  e = ClickRun \/ is_timer e = true ->
  step Date_now e w = Ok w' ->
  files w' = files w /\ activeFileId w' = activeFileId w /\
  localStorage w' = localStorage w.
Proof.
  intros [->|Ht].
  - simpl. unfold runCode. destruct (isRunning w); [intros H; injection H as <-; auto|].
    destruct (activeFile w); [|discriminate]. intros H; injection H as <-. auto.
  - destruct e; try discriminate. simpl.
    destruct (take_out i (pending w)) as [[t rest]|];
      [|intros H; injection H as <-; auto].
    intros H; injection H as <-. unfold resume. destruct (phase t); auto.
Qed.

(** While a run is in progress, an event that is not a timer leaves the
    suspended run as it is. *)
Lemma non_timer_keeps_task e w w' :
  is_timer e = false -> isRunning w = true -> step Date_now e w = Ok w' ->
  pending w' = pending w /\ isRunning w' = true.
Proof.
  intros Ht Hr. destruct e as [row|row confirm|answer rnd| | |value|i];
    try discriminate; simpl.
  - destruct (nth_error (files w) row); intros H; injection H as <-; auto.
  - destruct (nth_error (files w) row); [|intros H; injection H as <-; auto].
    intros H. apply deleteFile_frame in H as (_ & -> & ->). auto.
  - intros H; injection H as <-.
    destruct (createNewFile_frame answer rnd w) as (_ & -> & ->). auto.
  - intros H; injection H as <-. auto.
  - unfold runCode. rewrite Hr. intros H; injection H as <-. auto.
  - intros H; injection H as <-.
    destruct (handleEditorChange_frame value w) as (_ & -> & ->). auto.
Qed.

Lemma non_timers_keep_task evs : forall w w',
  forallb (fun e => negb (is_timer e)) evs = true ->
  isRunning w = true -> run Date_now evs w = Ok w' ->
  pending w' = pending w /\ isRunning w' = true.
Proof.
  induction evs as [|e evs IH]; simpl; intros w w' Hall Hr H.
  - injection H as <-. auto.
  - apply andb_true_iff in Hall as [He Hall]. apply negb_true_iff in He.
    destruct (step Date_now e w) as [w1|w1] eqn:Es; [|discriminate].
    destruct (non_timer_keeps_task e w w1 He Hr Es) as [Hp Hr1].
    destruct (IH w1 w' Hall Hr1 H) as [Hp' Hr']. split; congruence.
Qed.

End RunAndWorkspace.

(** X16: the name in the lines of a run is the name of the buffer that
    was active when the run was started: whatever the user does before
    the first timer fires (selecting another file, creating, deleting,
    editing, saving, clicking run again), the line then written is the
    compiling line for that buffer, and the run is still in progress. *)
Theorem run_keeps_name_of_start
        (Date_now : nat -> N) (w w' : World) (f : FileNode.t) (evs : list Event) :
  reachable Date_now w ->
  isRunning w = false ->
  activeFile w = Some f ->
  forallb (fun e => negb (is_timer e)) evs = true ->
  run Date_now (ClickRun :: evs ++ [TimerFires 0]) w = Ok w' ->
  isRunning w' = true /\
  exists before stamp,
    terminalLines w'
    = before ++ [TerminalLine.mk TerminalLine.output
                   (str "Compiling " ++ FileNode.name f ++ str "...") stamp].
Proof.
  intros Hreach Hr Hf Hall. pose proof (reachable_Inv _ _ Hreach) as HI.
  pose proof (Inv_idle w HI Hr) as Hp.
  cbn [run step]. unfold runCode. rewrite Hr, Hf. rewrite run_app.
  set (w1 := suspend _ _).
  destruct (run Date_now evs w1) as [w2|w2] eqn:E2; [|discriminate].
  destruct (non_timers_keep_task Date_now evs w1 w2 Hall eq_refl E2) as [Hp2 Hr2].
  assert (Hp1 : pending w1 = [mkTask AwaitCompile (FileNode.name f)]).
  { unfold w1. simpl. now rewrite Hp. }
  rewrite Hp1 in Hp2. cbn [run step]. rewrite Hp2. cbn [take_out].
  intros H. injection H as <-. unfold resume. cbn [phase fileName].
  split; [exact Hr2|]. simpl. eauto.
Qed.

Lemma run_keeps_name_of_start_witness :
  exists w' before stamp,
    run (fun _ => 0) [ClickRun; ClickFile 1; ClickSave; TimerFires 0] initial_world = Ok w' /\
    option_map FileNode.name (activeFile w') = Some (str "header.h") /\
    terminalLines w'
    = before ++ [TerminalLine.mk TerminalLine.output
                   (str "Compiling main.cpp...") stamp].
Proof.
  destruct (run (fun _ => 0) [ClickRun; ClickFile 1; ClickSave; TimerFires 0] initial_world)
    as [w'|w'] eqn:E; [|vm_compute in E; discriminate].
  destruct (run_keeps_name_of_start (fun _ => 0) initial_world w'
              (nth 0 INITIAL_FILES (FileNode.mk [] [] [] FileNode.c))
              [ClickFile 1; ClickSave])
    as (_ & before & stamp & Hl).
  - apply reachable_initial.
  - reflexivity.
  - reflexivity.
  - reflexivity.
  - exact E.
  - exists w', before, stamp. split; [reflexivity|]. split; [|exact Hl].
    vm_compute in E. injection E as <-. reflexivity.
Defined.

(** X17: a sequence of events of the simulation alone (clicks on run and
    timers) never changes the collection, the pointer or the slot. *)
Theorem simulation_leaves_workspace
        (Date_now : nat -> N) (evs : list Event) (w w' : World) :
  forallb (fun e => match e with ClickRun => true | _ => is_timer e end) evs = true ->
  run Date_now evs w = Ok w' ->
  files w' = files w /\ activeFileId w' = activeFileId w /\
  localStorage w' = localStorage w.
Proof.
  revert w. induction evs as [|e evs IH]; simpl; intros w Hall H.
  - injection H as <-. auto.
  - apply andb_true_iff in Hall as [He Hall].
    destruct (step Date_now e w) as [w1|w1] eqn:Es; [|discriminate].
    assert (Hk : e = ClickRun \/ is_timer e = true)
      by (destruct e; auto; discriminate).
    destruct (simulation_step_frame Date_now e w w1 Hk Es) as (F1 & F2 & F3).
    destruct (IH w1 Hall H) as (G1 & G2 & G3). repeat split; congruence.
Qed.

Lemma simulation_leaves_workspace_witness :
  exists w', run (fun _ => 0) whole_run initial_world = Ok w' /\
             files w' = INITIAL_FILES.
Proof.
  destruct (run (fun _ => 0) whole_run initial_world) as [w'|w'] eqn:E;
    [|vm_compute in E; discriminate].
  exists w'. split; [reflexivity|].
  exact (proj1 (simulation_leaves_workspace (fun _ => 0) whole_run initial_world w'
                  eq_refl E)).
Defined.

(** ** The order of the log *)

Section Stamps.

Variable Date_now : nat -> N.

Lemma StronglySorted_snoc ks k :
  StronglySorted lt ks -> Forall (fun j => (j < k)%nat) ks ->
  StronglySorted lt (ks ++ [k]).
Proof.
  induction ks as [|j ks IH]; simpl; intros Hs Hall.
  - repeat constructor.
  - inversion Hs as [|x l Hs' Hj]; subst. inversion Hall as [|y l' Hjk Hall']; subst.
    constructor; [now apply IH|].
    apply Forall_app. split; [assumption|]. now repeat constructor.
Qed.

Lemma stamped_addLine content type w :
  stamped Date_now w -> stamped Date_now (addLine Date_now content type w).
Proof.
  intros (ks & Hm & Hs & Hb). exists (ks ++ [ticks w]). simpl.
  split; [now rewrite !map_app, Hm|].
  split; [now apply StronglySorted_snoc|].
  apply Forall_app. split.
  - eapply Forall_impl; [|exact Hb]. simpl. intros; lia.
  - repeat constructor.
Qed.

Lemma stamped_keep w w' :
  terminalLines w' = terminalLines w -> ticks w' = ticks w ->
  stamped Date_now w -> stamped Date_now w'.
Proof.
  intros Hl Ht (ks & Hm & Hs & Hb). exists ks. now rewrite Hl, Ht.
Qed.

Lemma stamped_cleared w :
  terminalLines w = [] -> stamped Date_now w.
Proof.
  intros Hl. exists []. rewrite Hl. repeat constructor.
Qed.

Lemma deleteFile_ticks id confirm w w' :
  deleteFile id confirm w = Ok w' -> ticks w' = ticks w.
Proof.
  unfold deleteFile.
  destruct (List.length (files w) <=? 1)%nat; [intros H; injection H as <-; auto|].
  destruct confirm; simpl; [|intros H; injection H as <-; auto].
  destruct (jsstring_eqb (activeFileId w) id).
  - destruct (filter _ (files w)); [discriminate|].
    intros H; injection H as <-; auto.
  - intros H; injection H as <-; auto.
Qed.

Lemma createNewFile_ticks answer rnd w :
  ticks (fst (createNewFile answer rnd w)) = ticks w.
Proof.
  unfold createNewFile. destruct answer as [[|u name]|]; simpl; auto.
  destruct (language_of (extension (u :: name))); simpl; auto.
Qed.

Lemma stamped_step e w w' :
  stamped Date_now w -> step Date_now e w = Ok w' -> stamped Date_now w'.
Proof.
  intros Hst. destruct e as [row|row confirm|answer rnd| | |value|i]; simpl.
  - destruct (nth_error (files w) row); intros H; injection H as <-; assumption.
  - destruct (nth_error (files w) row); [|intros H; injection H as <-; assumption].
    intros H. apply (stamped_keep w); [|now apply deleteFile_ticks in H|assumption].
    now apply deleteFile_frame in H as [-> _].
  - intros H; injection H as <-.
    apply (stamped_keep w); [|apply createNewFile_ticks|assumption].
    now destruct (createNewFile_frame answer rnd w) as [-> _].
  - intros H; injection H as <-. unfold saveFiles. apply stamped_addLine.
    now apply (stamped_keep w).
  - unfold runCode. destruct (isRunning w); [intros H; injection H as <-; assumption|].
    destruct (activeFile w); [|discriminate].
    intros H; injection H as <-.
    apply (stamped_keep (addLine Date_now (str "$ g++ " ++ FileNode.name t ++ str " -o output")
                                 TerminalLine.system
                                 (setTerminalLines [] (setIsRunning true w))));
      try reflexivity.
    apply stamped_addLine. now apply stamped_cleared.
  - intros H; injection H as <-.
    apply (stamped_keep w); [|now destruct value|assumption].
    now destruct (handleEditorChange_frame value w) as [-> _].
  - destruct (take_out i (pending w)) as [[t rest]|];
      [|intros H; injection H as <-; assumption].
    intros H; injection H as <-.
    assert (H0 : stamped Date_now (setPending rest w)) by now apply (stamped_keep w).
    unfold resume. destruct (phase t).
    + eapply stamped_keep; [| |apply stamped_addLine; exact H0]; reflexivity.
    + eapply stamped_keep; [| |apply stamped_addLine; exact H0]; reflexivity.
    + eapply stamped_keep;
        [| |apply stamped_addLine, stamped_addLine, stamped_addLine; exact H0];
        reflexivity.
Qed.

Lemma stamped_reachable w : reachable Date_now w -> stamped Date_now w.
Proof.
  intros (saved & w0 & evs & Hm & Hr).
  assert (H0 : stamped Date_now w0).
  { unfold mount in Hm. destruct (load saved) as [[|f fs]| |]; try discriminate.
    injection Hm as <-. now apply stamped_cleared. }
  clear Hm. revert w0 H0 Hr. induction evs as [|e evs IH]; simpl; intros w0 H0 Hr.
  - now injection Hr as <-.
  - destruct (step Date_now e w0) as [w1|w1] eqn:Es; [|discriminate].
    eapply IH; [|eassumption]. eapply stamped_step; eassumption.
Qed.

Lemma sorted_readings ks :
  (forall i j, (i <= j)%nat -> Date_now i <= Date_now j) ->
  StronglySorted lt ks -> StronglySorted N.le (map Date_now ks).
Proof.
  intros Hmono. induction ks as [|k ks IH]; simpl; intros Hs; [constructor|].
  inversion Hs as [|x l Hs' Hk]; subst. constructor; [now apply IH|].
  apply Forall_map. eapply Forall_impl; [|exact Hk].
  simpl. intros j Hj. apply Hmono. lia.
Qed.

End Stamps.

(** X18: when the clock never goes back, the log of every reachable state
    is in the order of its timestamps: each line is stamped no earlier
    than the lines before it. *)
Theorem log_in_clock_order (Date_now : nat -> N) (w : World) :
  (forall i j, (i <= j)%nat -> Date_now i <= Date_now j) ->
  reachable Date_now w ->
  StronglySorted N.le (map TerminalLine.timestamp (terminalLines w)).
Proof.
  intros Hmono Hreach.
  destruct (stamped_reachable Date_now w Hreach) as (ks & Hm & Hs & _).
  rewrite Hm. now apply sorted_readings.
Qed.

Lemma log_in_clock_order_witness :
  exists w,
    run (fun n => N.of_nat n) (ClickSave :: whole_run ++ [ClickSave]) initial_world = Ok w /\
    StronglySorted N.le (map TerminalLine.timestamp (terminalLines w)).
Proof.
  destruct (run (fun n => N.of_nat n) (ClickSave :: whole_run ++ [ClickSave]) initial_world)
    as [w|w] eqn:E; [|vm_compute in E; discriminate].
  exists w. split; [reflexivity|].
  apply (log_in_clock_order (fun n => N.of_nat n)).
  - intros i j Hij. lia.
  - exact (run_reachable _ _ _ E).
Defined.

(** ** Distinct ids *)

(** X19: pairwise distinct ids stay pairwise distinct under every event
    whose handler returns, except a creation that draws an id some buffer
    already carries: selecting, editing, deleting, saving and running
    never make two buffers share an id. *)
Theorem distinct_ids_kept (Date_now : nat -> N) (e : Event) (w w' : World) :
  NoDup (ids (files w)) ->
  (forall answer rnd, e = ClickNew answer rnd -> ~ In rnd (ids (files w))) ->
  step Date_now e w = Ok w' ->
  NoDup (ids (files w')).
Proof.
  intros Hnd Hfresh. destruct e as [row|row confirm|answer rnd| | |value|i].
  - simpl. destruct (nth_error (files w) row); intros H; injection H as <-; assumption.
  - simpl. destruct (nth_error (files w) row) as [f|];
      [|intros H; injection H as <-; assumption].
    unfold deleteFile.
    destruct (List.length (files w) <=? 1)%nat; [intros H; injection H as <-; assumption|].
    destruct confirm; simpl; [|intros H; injection H as <-; assumption].
    pose proof (NoDup_ids_filter (fun g => negb (has_id (FileNode.id f) g)) _ Hnd) as Hnd'.
    destruct (jsstring_eqb (activeFileId w) (FileNode.id f)).
    + destruct (filter _ (files w)); [discriminate|].
      intros H; injection H as <-. exact Hnd'.
    + intros H; injection H as <-. exact Hnd'.
  - simpl. intros H; injection H as <-. unfold createNewFile.
    destruct answer as [[|u name]|]; simpl; auto.
    destruct (language_of (extension (u :: name))); simpl; auto.
    unfold ids. rewrite map_app. simpl. apply NoDup_snoc; [assumption|].
    exact (Hfresh _ _ eq_refl).
  - simpl. intros H; injection H as <-. assumption.
  - intros H. apply simulation_step_frame in H as [-> _]; auto.
  - simpl. intros H; injection H as <-.
    destruct value as [v|]; [|assumption]. simpl. now rewrite ids_edit.
  - intros H. apply simulation_step_frame in H as [-> _]; auto.
Qed.

Lemma distinct_ids_kept_witness :
  exists w',
    step (fun _ => 0) (ClickNew (Some (str "utils.c")) (str "k3x9")) initial_world = Ok w' /\
    NoDup (ids (files w')).
Proof.
  eexists. split; [reflexivity|].
  apply (distinct_ids_kept (fun _ => 0) (ClickNew (Some (str "utils.c")) (str "k3x9"))
                           initial_world).
  - distinct_ids.
  - intros answer rnd H. injection H as _ <-. vm_compute. intuition discriminate.
  - reflexivity.
Defined.

(** ** A run among other events *)

Lemma timer_resumes Date_now t w :
  pending w = [t] ->
  step Date_now (TimerFires 0) w = Ok (resume Date_now t (setPending [] w)).
Proof. intros Hp. simpl. now rewrite Hp. Qed.

(** X20: a run started from an idle reachable state is completed by the
    third firing of a timer, whatever the user does that returns before,
    between and after the first two: the flag is then down, no run is
    suspended, and the log ends with the run command, the note on the
    simulation and the line reporting exit code 0. *)
Theorem run_completes_at_third_timer
        (Date_now : nat -> N) (w w' : World) (f : FileNode.t) (a b c : list Event) :
  reachable Date_now w ->
  isRunning w = false ->
  activeFile w = Some f ->
  forallb (fun e => negb (is_timer e)) a = true ->
  forallb (fun e => negb (is_timer e)) b = true ->
  forallb (fun e => negb (is_timer e)) c = true ->
  run Date_now (ClickRun :: a ++ TimerFires 0 :: b ++ TimerFires 0 :: c ++ [TimerFires 0]) w
  = Ok w' ->
  isRunning w' = false /\ pending w' = [] /\
  exists before t1 t2 t3,
    terminalLines w'
    = before ++
      [TerminalLine.mk TerminalLine.system (str "$ ./output") t1;
       TerminalLine.mk TerminalLine.system
         (str "Note: This is a frontend simulation. Native system execution is restricted in the browser environment.")
         t2;
       TerminalLine.mk TerminalLine.system (str "Process finished with exit code 0") t3].
Proof.
  intros Hreach Hr Hf Ha Hb Hc. pose proof (reachable_Inv _ _ Hreach) as HI.
  pose proof (Inv_idle w HI Hr) as Hp.
  cbn [run step]. unfold runCode. rewrite Hr, Hf.
  set (w1 := suspend _ _).
  assert (Hp1 : pending w1 = [mkTask AwaitCompile (FileNode.name f)])
    by (unfold w1; simpl; now rewrite Hp).
  rewrite run_app.
  destruct (run Date_now a w1) as [w2|w2] eqn:E2; [|discriminate].
  destruct (non_timers_keep_task Date_now a w1 w2 Ha eq_refl E2) as [Hp2 Hr2].
  rewrite Hp1 in Hp2. cbn [run]. rewrite (timer_resumes _ _ _ Hp2).
  set (w3 := resume _ _ _).
  assert (Hp3 : pending w3 = [mkTask AwaitLink (FileNode.name f)]) by reflexivity.
  assert (Hr3 : isRunning w3 = true) by exact Hr2.
  rewrite run_app.
  destruct (run Date_now b w3) as [w4|w4] eqn:E4; [|discriminate].
  destruct (non_timers_keep_task Date_now b w3 w4 Hb Hr3 E4) as [Hp4 Hr4].
  rewrite Hp3 in Hp4. cbn [run]. rewrite (timer_resumes _ _ _ Hp4).
  set (w5 := resume _ _ _).
  assert (Hp5 : pending w5 = [mkTask AwaitExec (FileNode.name f)]) by reflexivity.
  assert (Hr5 : isRunning w5 = true) by exact Hr4.
  rewrite run_app.
  destruct (run Date_now c w5) as [w6|w6] eqn:E6; [|discriminate].
  destruct (non_timers_keep_task Date_now c w5 w6 Hc Hr5 E6) as [Hp6 Hr6].
  rewrite Hp5 in Hp6. cbn [run]. rewrite (timer_resumes _ _ _ Hp6).
  intros H. injection H as <-.
  split; [reflexivity|]. split; [reflexivity|].
  unfold resume. cbn [phase]. simpl. rewrite <- !app_assoc. simpl. eauto.
Qed.

Lemma run_completes_at_third_timer_witness :
  exists w',
    run (fun _ => 0)
        [ClickRun; ClickSave; TimerFires 0; ClickRun; TimerFires 0;
         ClickFile 1; TimerFires 0] initial_world = Ok w' /\
    isRunning w' = false /\ List.length (terminalLines w') = 7%nat.
Proof.
  destruct (run (fun _ => 0)
                [ClickRun; ClickSave; TimerFires 0; ClickRun; TimerFires 0;
                 ClickFile 1; TimerFires 0] initial_world) as [w'|w'] eqn:E;
    [|vm_compute in E; discriminate].
  destruct (run_completes_at_third_timer (fun _ => 0) initial_world w'
              (nth 0 INITIAL_FILES (FileNode.mk [] [] [] FileNode.c))
              [ClickSave] [ClickRun] [ClickFile 1])
    as (Hr & _ & _).
  - apply reachable_initial.
  - reflexivity.
  - reflexivity.
  - reflexivity.
  - reflexivity.
  - reflexivity.
  - exact E.
  - exists w'. split; [reflexivity|]. split; [exact Hr|].
    vm_compute in E. injection E as <-. reflexivity.
Defined.

(** ** Two runs in succession *)

Section SecondRun.

Variable Date_now : nat -> N.

Lemma read_since_addLine t0 content type w :
  read_since Date_now t0 w -> read_since Date_now t0 (addLine Date_now content type w).
Proof.
  intros (Ht & ks & Hm & Hb). split; [simpl; lia|].
  exists (ks ++ [ticks w]). simpl. split; [now rewrite !map_app, Hm|].
  apply Forall_app. split.
  - eapply Forall_impl; [|exact Hb]. simpl. intros; lia.
  - repeat constructor; lia.
Qed.

Lemma read_since_keep t0 w w' :
  terminalLines w' = terminalLines w -> ticks w' = ticks w ->
  read_since Date_now t0 w -> read_since Date_now t0 w'.
Proof.
  intros Hl Ht (H0 & ks & Hm & Hb). split; [lia|].
  exists ks. now rewrite Hl, Ht.
Qed.

Lemma read_since_cleared t0 w :
  (t0 <= ticks w)%nat -> terminalLines w = [] -> read_since Date_now t0 w.
Proof.
  intros Ht Hl. split; [exact Ht|]. exists []. rewrite Hl. split; constructor.
Qed.

Lemma read_since_step t0 e w w' :
  read_since Date_now t0 w -> step Date_now e w = Ok w' -> read_since Date_now t0 w'.
Proof.
  intros Hst. destruct e as [row|row confirm|answer rnd| | |value|i]; simpl.
  - destruct (nth_error (files w) row); intros H; injection H as <-; assumption.
  - destruct (nth_error (files w) row); [|intros H; injection H as <-; assumption].
    intros H. apply (read_since_keep t0 w); [|now apply deleteFile_ticks in H|assumption].
    now apply deleteFile_frame in H as [-> _].
  - intros H; injection H as <-.
    apply (read_since_keep t0 w); [|apply createNewFile_ticks|assumption].
    now destruct (createNewFile_frame answer rnd w) as [-> _].
  - intros H; injection H as <-. unfold saveFiles. apply read_since_addLine.
    now apply (read_since_keep t0 w).
  - unfold runCode. destruct (isRunning w); [intros H; injection H as <-; assumption|].
    destruct (activeFile w) as [g|]; [|discriminate].
    intros H; injection H as <-.
    apply (read_since_keep t0
             (addLine Date_now (str "$ g++ " ++ FileNode.name g ++ str " -o output")
                      TerminalLine.system
                      (setTerminalLines [] (setIsRunning true w))));
      try reflexivity.
    apply read_since_addLine. apply read_since_cleared; [|reflexivity].
    exact (proj1 Hst).
  - intros H; injection H as <-.
    apply (read_since_keep t0 w); [|now destruct value|assumption].
    now destruct (handleEditorChange_frame value w) as [-> _].
  - destruct (take_out i (pending w)) as [[t rest]|];
      [|intros H; injection H as <-; assumption].
    intros H; injection H as <-.
    assert (H0 : read_since Date_now t0 (setPending rest w))
      by now apply (read_since_keep t0 w).
    unfold resume. destruct (phase t).
    + eapply read_since_keep; [| |apply read_since_addLine; exact H0]; reflexivity.
    + eapply read_since_keep; [| |apply read_since_addLine; exact H0]; reflexivity.
    + eapply read_since_keep;
        [| |apply read_since_addLine, read_since_addLine, read_since_addLine; exact H0];
        reflexivity.
Qed.

Lemma read_since_run t0 evs : forall w w',
  read_since Date_now t0 w -> run Date_now evs w = Ok w' -> read_since Date_now t0 w'.
Proof.
  induction evs as [|e evs IH]; simpl; intros w w' Hst H.
  - now injection H as <-.
  - destruct (step Date_now e w) as [w1|w1] eqn:Es; [|discriminate].
    eapply IH; [|eassumption]. eapply read_since_step; eassumption.
Qed.

(** While a run is in progress, an event that is neither a timer nor a
    save leaves the log and the clock as they are. *)
Lemma quiet_step e w w' :
  negb (is_timer e) && negb (is_save e) = true ->
  isRunning w = true -> step Date_now e w = Ok w' ->
  terminalLines w' = terminalLines w /\ ticks w' = ticks w.
Proof.
  intros Hq Hr. destruct e as [row|row confirm|answer rnd| | |value|i];
    try discriminate; simpl.
  - destruct (nth_error (files w) row); intros H; injection H as <-; auto.
  - destruct (nth_error (files w) row); [|intros H; injection H as <-; auto].
    intros H. split; [now apply deleteFile_frame in H as [-> _]|].
    now apply deleteFile_ticks in H.
  - intros H; injection H as <-. split; [|apply createNewFile_ticks].
    now destruct (createNewFile_frame answer rnd w) as [-> _].
  - unfold runCode. rewrite Hr. intros H; injection H as <-. auto.
  - intros H; injection H as <-. now destruct value.
Qed.

Lemma quiet_run evs : forall w w',
  quiet evs = true -> isRunning w = true -> run Date_now evs w = Ok w' ->
  terminalLines w' = terminalLines w /\ ticks w' = ticks w.
Proof.
  induction evs as [|e evs IH]; simpl; intros w w' Hq Hr H.
  - injection H as <-. auto.
  - apply andb_true_iff in Hq as [He Hq].
    destruct (step Date_now e w) as [w1|w1] eqn:Es; [|discriminate].
    destruct (quiet_step e w w1 He Hr Es) as [Hl Ht].
    assert (Hnt : is_timer e = false)
      by (apply andb_true_iff in He as [He _]; now apply negb_true_iff in He).
    destruct (non_timer_keeps_task Date_now e w w1 Hnt Hr Es) as [_ Hr1].
    destruct (IH w1 w' Hq Hr1 H) as [Hl' Ht']. split; congruence.
Qed.

End SecondRun.

(** C7, as the code has it: let a second run of the simulation be started
    in an idle reachable state (such as the state a first complete run
    leaves) and be completed by its three timers, with any returning
    actions of the user meanwhile.  Every line the log held before was
    stamped with a clock reading taken before the second run started, and
    every line of the log after it with a reading taken since: no line
    appended during the first run remains.  When no save is made during
    the second run (saving is never disabled and appends its own line),
    the log is exactly the six lines of the second run.  And while a run
    is in progress every event only appends to the log: the lines already
    there stay in place unchanged. *)
Theorem second_run_replaces_log
        (Date_now : nat -> N) (w1 w2 : World) (f : FileNode.t) (a b c : list Event) :
  reachable Date_now w1 ->
  isRunning w1 = false ->
  activeFile w1 = Some f ->
  forallb (fun e => negb (is_timer e)) a = true ->
  forallb (fun e => negb (is_timer e)) b = true ->
  forallb (fun e => negb (is_timer e)) c = true ->
  run Date_now (ClickRun :: a ++ TimerFires 0 :: b ++ TimerFires 0 :: c ++ [TimerFires 0]) w1
  = Ok w2 ->
  isRunning w2 = false /\
  stamped Date_now w1 /\
  read_since Date_now (ticks w1) w2 /\
  (quiet a = true -> quiet b = true -> quiet c = true ->
   terminalLines w2 = run_log Date_now (ticks w1) (FileNode.name f)) /\
  (forall e v v',
     isRunning v = true -> step Date_now e v = Ok v' ->
     exists added, terminalLines v' = terminalLines v ++ added).
Proof.
  intros Hreach Hr Hf Ha Hb Hc Hrun. pose proof (reachable_Inv _ _ Hreach) as HI.
  pose proof (Inv_idle w1 HI Hr) as Hp.
  assert (Hsince : read_since Date_now (ticks w1) w2).
  { revert Hrun. cbn [run step]. unfold runCode. rewrite Hr, Hf.
    apply read_since_run.
    apply (read_since_keep Date_now (ticks w1)
             (addLine Date_now (str "$ g++ " ++ FileNode.name f ++ str " -o output")
                      TerminalLine.system
                      (setTerminalLines [] (setIsRunning true w1))));
      try reflexivity.
    apply read_since_addLine. apply read_since_cleared; [|reflexivity]. simpl. lia. }
  revert Hrun. cbn [run step]. unfold runCode. rewrite Hr, Hf.
  set (u1 := suspend _ _).
  assert (Hp1 : pending u1 = [mkTask AwaitCompile (FileNode.name f)])
    by (unfold u1; simpl; now rewrite Hp).
  rewrite run_app.
  destruct (run Date_now a u1) as [u2|u2] eqn:E2; [|discriminate].
  destruct (non_timers_keep_task Date_now a u1 u2 Ha eq_refl E2) as [Hp2 Hr2].
  rewrite Hp1 in Hp2. cbn [run]. rewrite (timer_resumes _ _ _ Hp2).
  set (u3 := resume _ _ _).
  assert (Hp3 : pending u3 = [mkTask AwaitLink (FileNode.name f)]) by reflexivity.
  assert (Hr3 : isRunning u3 = true) by exact Hr2.
  rewrite run_app.
  destruct (run Date_now b u3) as [u4|u4] eqn:E4; [|discriminate].
  destruct (non_timers_keep_task Date_now b u3 u4 Hb Hr3 E4) as [Hp4 Hr4].
  rewrite Hp3 in Hp4. cbn [run]. rewrite (timer_resumes _ _ _ Hp4).
  set (u5 := resume _ _ _).
  assert (Hp5 : pending u5 = [mkTask AwaitExec (FileNode.name f)]) by reflexivity.
  assert (Hr5 : isRunning u5 = true) by exact Hr4.
  rewrite run_app.
  destruct (run Date_now c u5) as [u6|u6] eqn:E6; [|discriminate].
  destruct (non_timers_keep_task Date_now c u5 u6 Hc Hr5 E6) as [Hp6 Hr6].
  rewrite Hp5 in Hp6. cbn [run]. rewrite (timer_resumes _ _ _ Hp6).
  intros H. injection H as <-.
  split; [reflexivity|].
  split; [exact (stamped_reachable Date_now w1 Hreach)|].
  split; [exact Hsince|].
  split; [|intros e v v'; apply step_appends].
  intros Qa Qb Qc.
  destruct (quiet_run Date_now a u1 u2 Qa eq_refl E2) as [L2 T2].
  destruct (quiet_run Date_now b u3 u4 Qb Hr3 E4) as [L4 T4].
  destruct (quiet_run Date_now c u5 u6 Qc Hr5 E6) as [L6 T6].
  assert (L3 : terminalLines u3
               = terminalLines u2 ++
                 [TerminalLine.mk TerminalLine.output
                    (str "Compiling " ++ FileNode.name f ++ str "...")
                    (Date_now (ticks u2))]) by reflexivity.
  assert (T3 : ticks u3 = S (ticks u2)) by reflexivity.
  assert (L5 : terminalLines u5
               = terminalLines u4 ++
                 [TerminalLine.mk TerminalLine.output (str "Linking objects...")
                    (Date_now (ticks u4))]) by reflexivity.
  assert (T5 : ticks u5 = S (ticks u4)) by reflexivity.
  assert (L1 : terminalLines u1
               = [TerminalLine.mk TerminalLine.system
                    (str "$ g++ " ++ FileNode.name f ++ str " -o output")
                    (Date_now (ticks w1))]) by reflexivity.
  assert (T1 : ticks u1 = S (ticks w1)) by reflexivity.
  unfold resume. cbn [phase]. cbn [terminalLines setIsRunning addLine setPending ticks].
  rewrite L6, T6, L5, T5, L4, T4, L3, T3, L2, T2, L1, T1.
  reflexivity.
Qed.

Lemma second_run_replaces_log_witness :
  exists w1 w2,
    run (fun n => N.of_nat n) [ClickRun; TimerFires 0; ClickSave; TimerFires 0; TimerFires 0]
        initial_world = Ok w1 /\
    run (fun n => N.of_nat n) [ClickRun; ClickFile 1; TimerFires 0; TimerFires 0; TimerFires 0]
        w1 = Ok w2 /\
    terminalLines w2 = run_log (fun n => N.of_nat n) 7 (str "main.cpp").
Proof.
  destruct (run (fun n => N.of_nat n)
                [ClickRun; TimerFires 0; ClickSave; TimerFires 0; TimerFires 0]
                initial_world) as [w1|w1] eqn:E1; [|vm_compute in E1; discriminate].
  destruct (run (fun n => N.of_nat n)
                [ClickRun; ClickFile 1; TimerFires 0; TimerFires 0; TimerFires 0] w1)
    as [w2|w2] eqn:E2;
    [|vm_compute in E1; injection E1 as <-; vm_compute in E2; discriminate].
  assert (Hw1 : isRunning w1 = false /\ ticks w1 = 7%nat /\
                activeFile w1 = Some (nth 0 INITIAL_FILES (FileNode.mk [] [] [] FileNode.c))).
  { vm_compute in E1. injection E1 as <-. repeat split. }
  destruct Hw1 as (Hr & Ht & Hf).
  destruct (second_run_replaces_log (fun n => N.of_nat n) w1 w2
              (nth 0 INITIAL_FILES (FileNode.mk [] [] [] FileNode.c))
              [ClickFile 1] [] [] (run_reachable _ _ _ E1) Hr Hf
              eq_refl eq_refl eq_refl E2)
    as (_ & _ & _ & Hlog & _).
  exists w1, w2. split; [reflexivity|]. split; [exact E2|].
  rewrite (Hlog eq_refl eq_refl eq_refl), Ht. reflexivity.
Defined.

(** C7 as stated fails: of two complete runs in succession from the
    initial workspace, with one click on save during the second, the log
    after the second holds seven lines, the save notice among them, and
    so is not exactly the lines of the second run. *)
Lemma save_during_second_run_stays_in_log :
  exists w1 w2,
    run (fun n => N.of_nat n) whole_run initial_world = Ok w1 /\
    run (fun n => N.of_nat n)
        [ClickRun; TimerFires 0; ClickSave; TimerFires 0; TimerFires 0] w1 = Ok w2 /\
    isRunning w2 = false /\
    List.length (terminalLines w2) = 7%nat /\
    In (TerminalLine.mk TerminalLine.system
                        (str "System: Workspace saved to local storage.") 8)
       (terminalLines w2) /\
    terminalLines w2 <> run_log (fun n => N.of_nat n) (ticks w1) (str "main.cpp").
Proof.
  eexists. eexists.
  split; [vm_compute; reflexivity|].
  split; [vm_compute; reflexivity|].
  split; [reflexivity|]. split; [reflexivity|].
  split; [vm_compute; tauto|].
  intros H. apply (f_equal (@List.length _)) in H. vm_compute in H. discriminate.
Qed.
